(** * SQL Architect: the SQL generator and the project reducer

    A shallow embedding of [src/utils/sqlGenerator.ts] (class
    [SQLGenerator]) and of [src/hooks/useProject.ts] ([projectReducer]),
    with the record types of [src/types].

    Strings are sequences of 8-bit characters and stand for ASCII text:
    [toUpperCase] and the white space of [trim] and [Number] are the
    ASCII parts of the ECMAScript definitions.  JavaScript numbers that
    reach the generated text ([autoIncrement]) are integers. *)

From Stdlib Require Import String Ascii List ZArith Bool Lia.
From Stdlib Require Import Numbers.DecimalString.
From stdpp Require Import base option gmap strings list.
Import ListNotations.

Local Open Scope string_scope.
Local Open Scope list_scope.

(** ** ECMAScript string primitives used by the sources *)

Module JS.

(** The line feed and the double quote, as one-character strings. *)
Definition LF : string := String (ascii_of_nat 10) EmptyString.
Definition DQ : string := String (ascii_of_nat 34) EmptyString.

(** [String.prototype.toUpperCase], ASCII letters. *)
Definition upperChar (c : ascii) : ascii :=
    let n := nat_of_ascii c in
    if (97 <=? n)%nat && (n <=? 122)%nat then ascii_of_nat (n - 32) else c.

Fixpoint toUpperCase (s : string) : string :=
    match s with
    | EmptyString => EmptyString
    | String c r => String (upperChar c) (toUpperCase r)
    end.

(** [s.replace(/'/g, "''")]: every single quote is written twice. *)
Fixpoint replaceQuotes (s : string) : string :=
    match s with
    | EmptyString => EmptyString
    | String c r =>
        if Ascii.eqb c "'" then String "'" (String "'" (replaceQuotes r))
        else String c (replaceQuotes r)
    end.

(** [StrWhiteSpaceChar]: TAB, LF, VT, FF, CR and SP. *)
Definition isWhiteSpace (c : ascii) : bool :=
    let n := nat_of_ascii c in
    ((9 <=? n)%nat && (n <=? 13)%nat) || (n =? 32)%nat.

Fixpoint trimStart (s : string) : string :=
    match s with
    | EmptyString => EmptyString
    | String c r => if isWhiteSpace c then trimStart r else s
    end.

Fixpoint trimEnd (s : string) : string :=
    match s with
    | EmptyString => EmptyString
    | String c r =>
        match trimEnd r with
        | EmptyString => if isWhiteSpace c then EmptyString else String c EmptyString
        | r' => String c r'
        end
    end.

Definition trim (s : string) : string := trimEnd (trimStart s).

(** [s.split(',')]: the pieces between the commas, at least one piece. *)
Fixpoint split (sep : ascii) (s : string) : list string :=
    match s with
    | EmptyString => [EmptyString]
    | String c r =>
        if Ascii.eqb c sep then EmptyString :: split sep r
        else match split sep r with
             | [] => [String c EmptyString]
             | p :: ps => String c p :: ps
             end
    end.

(** [Array.prototype.join]. *)
Fixpoint join (sep : string) (l : list string) : string :=
    match l with
    | [] => EmptyString
    | [x] => x
    | x :: r => x +:+ sep +:+ join sep r
    end.

(** [Array.prototype.includes] on an array of strings. *)
Definition includes (l : list string) (s : string) : bool :=
    existsb (String.eqb s) l.

(** Truth value of an optional string property: [undefined] and the
      empty string are falsy.  The result carries the string when truthy. *)
Definition truthy (o : option string) : option string :=
    match o with
    | Some (String _ _ as s) => Some s
    | _ => None
    end.

(** *** [isNaN(Number(s))] for a string [s]

      [Number] applied to a string follows the grammar
      [StringNumericLiteral]: optional white space around nothing, a
      signed decimal literal (with [Infinity], fraction and exponent) or
      an unsigned hexadecimal, octal or binary integer literal. *)

Definition inRange (lo hi : nat) (c : ascii) : bool :=
    let n := nat_of_ascii c in (lo <=? n)%nat && (n <=? hi)%nat.

Definition isDecimalDigit : ascii -> bool := inRange 48 57.
Definition isOctalDigit : ascii -> bool := inRange 48 55.
Definition isBinaryDigit : ascii -> bool := inRange 48 49.
Definition isHexDigit (c : ascii) : bool :=
    inRange 48 57 c || inRange 97 102 c || inRange 65 70 c.

Fixpoint allChars (p : ascii -> bool) (s : string) : bool :=
    match s with
    | EmptyString => true
    | String c r => p c && allChars p r
    end.

Definition nonEmpty (s : string) : bool :=
    match s with EmptyString => false | _ => true end.

(** One or more characters, all satisfying [p]. *)
Definition digits1 (p : ascii -> bool) (s : string) : bool :=
    nonEmpty s && allChars p s.

(** The longest prefix of decimal digits and what follows it. *)
Fixpoint spanDigits (s : string) : string * string :=
    match s with
    | EmptyString => (EmptyString, EmptyString)
    | String c r =>
        if isDecimalDigit c then
          let '(d, rest) := spanDigits r in (String c d, rest)
        else (EmptyString, s)
    end.

Definition signedInteger (s : string) : bool :=
    match s with
    | String "+" r | String "-" r => digits1 isDecimalDigit r
    | _ => digits1 isDecimalDigit s
    end.

Definition exponentPartOpt (s : string) : bool :=
    match s with
    | EmptyString => true
    | String "e" r | String "E" r => signedInteger r
    | _ => false
    end.

Definition strUnsignedDecimalLiteral (s : string) : bool :=
    if String.eqb s "Infinity" then true
    else
      let '(intPart, rest) := spanDigits s in
      match rest with
      | String "." rest' =>
          let '(fracPart, rest'') := spanDigits rest' in
          (nonEmpty intPart || nonEmpty fracPart) && exponentPartOpt rest''
      | _ => nonEmpty intPart && exponentPartOpt rest
      end.

Definition strDecimalLiteral (s : string) : bool :=
    match s with
    | String "+" r | String "-" r => strUnsignedDecimalLiteral r
    | _ => strUnsignedDecimalLiteral s
    end.

Definition nonDecimalIntegerLiteral (s : string) : bool :=
    match s with
    | String "0" (String "x" r) | String "0" (String "X" r) => digits1 isHexDigit r
    | String "0" (String "o" r) | String "0" (String "O" r) => digits1 isOctalDigit r
    | String "0" (String "b" r) | String "0" (String "B" r) => digits1 isBinaryDigit r
    | _ => false
    end.

(** [isNaN(Number(s))]. *)
Definition isNaN_Number (s : string) : bool :=
    let t := trim s in
    negb (negb (nonEmpty t) || strDecimalLiteral t || nonDecimalIntegerLiteral t).

(** Template interpolation of an integer number. *)
Definition numberToString (z : Z) : string :=
    NilZero.string_of_int (Z.to_int z).

(** [Array.prototype.findIndex]; [None] stands for the result [-1]. *)
Fixpoint findIndex {A : Type} (f : A -> bool) (l : list A) : option nat :=
  match l with
  | [] => None
  | x :: rest => if f x then Some 0%nat else S <$> findIndex f rest
  end.

End JS.

(** ** The record types of [src/types] *)

Module Column.
Record t : Type := mk {
    id : string;
    name : string;
    dataType : string;
    length : option string;
    isPrimaryKey : bool;
    isNotNull : bool;
    isAutoIncrement : bool;
    isUnique : bool;
    defaultValue : option string;
    isForeignKey : option bool;
    referencesTable : option string;
    referencesColumn : option string;
    comment : option string;
    collation : option string;
    charset : option string
  }.
End Column.

(** Canvas coordinates; no modelled function inspects them. *)
Record Position : Type := { pos_x : Z; pos_y : Z }.

Module TableData.
Record t : Type := mk {
    id : string;
    name : string;
    columns : list Column.t;
    position : Position;
    engine : option string;
    charset : option string;
    collation : option string;
    comment : option string;
    autoIncrement : option Z
  }.
End TableData.

Inductive IndexType := PRIMARY | UNIQUE | INDEX | FULLTEXT | SPATIAL.
Inductive IndexMethod := BTREE | HASH.

Module IndexData.
Record t : Type := mk {
    id : string;
    name : string;
    tableId : string;
    columns : list string;
    type : IndexType;
    method : option IndexMethod
  }.
End IndexData.

Inductive ViewAlgorithm := UNDEFINED | MERGE | TEMPTABLE.
Inductive SqlSecurity := DEFINER | INVOKER.

Module ViewData.
Record t : Type := mk {
    id : string;
    name : string;
    definition : string;
    isUpdatable : bool;
    algorithm : ViewAlgorithm;
    sqlSecurity : SqlSecurity;
    comment : option string
  }.
End ViewData.

Inductive Direction := IN | OUT | INOUT.
Inductive RoutineType := PROCEDURE | FUNCTION.

Module ProcParameter.
Record t : Type := mk {
    name : string;
    type : string;
    direction : Direction
  }.
End ProcParameter.

Module StoredProcedureData.
Record t : Type := mk {
    id : string;
    name : string;
    parameters : list ProcParameter.t;
    body : string;
    type : RoutineType;
    returnType : option string;
    comment : option string;
    sqlSecurity : SqlSecurity;
    deterministic : bool
  }.
End StoredProcedureData.

Inductive TriggerTiming := BEFORE | AFTER.
Inductive TriggerEvent := INSERT | UPDATE | DELETE.

Module TriggerData.
Record t : Type := mk {
    id : string;
    name : string;
    tableId : string;
    timing : TriggerTiming;
    event : TriggerEvent;
    body : string;
    comment : option string
  }.
End TriggerData.

Module DatabaseData.
Record t : Type := mk {
    id : string;
    name : string;
    charset : string;
    collation : string;
    comment : option string
  }.
End DatabaseData.

Module UserData.
Record t : Type := mk {
    id : string;
    username : string;
    host : string;
    password : option string;
    privileges : list string;
    comment : option string
  }.
End UserData.

Inductive RelationshipType := OneToOne | OneToMany | ManyToMany.

Inductive ReferentialAction := RESTRICT | CASCADE | SET_NULL | NO_ACTION | SET_DEFAULT.

(** The string a referential action is in the source. *)
Definition referentialActionText (a : ReferentialAction) : string :=
  match a with
  | RESTRICT => "RESTRICT"
  | CASCADE => "CASCADE"
  | SET_NULL => "SET NULL"
  | NO_ACTION => "NO ACTION"
  | SET_DEFAULT => "SET DEFAULT"
  end.

Module RelationshipData.
Record t : Type := mk {
    id : string;
    sourceTable : string;
    targetTable : string;
    sourceColumn : string;
    targetColumn : string;
    type : RelationshipType;
    onUpdate : ReferentialAction;
    onDelete : ReferentialAction
  }.
End RelationshipData.

(** A value of type [any] handed to [formatValue]. *)
Inductive Value :=
| VNull
| VUndefined
| VNumber (z : Z)
| VBoolean (b : bool)
| VString (s : string).

(** The argument [details : any] of [generateAlterTableSQL]: the
    properties its branches read.  Each branch reads only its own. *)
Module AlterDetails.
Record t : Type := mk {
    column : Column.t;
    columnName : string;
    oldName : string;
    newName : string;
    indexName : string;
    columns : list string
  }.
End AlterDetails.

(** The data types offered per dialect ([DATA_TYPES] of [src/types]). *)
Definition DATA_TYPES (dialect : string) : option (list string) :=
  if dialect =? "mysql" then
    Some ["TINYINT"; "SMALLINT"; "MEDIUMINT"; "INT"; "INTEGER"; "BIGINT";
          "DECIMAL"; "NUMERIC"; "FLOAT"; "DOUBLE"; "REAL"; "BIT";
          "CHAR"; "VARCHAR"; "BINARY"; "VARBINARY"; "TINYBLOB"; "TINYTEXT";
          "TEXT"; "BLOB"; "MEDIUMTEXT"; "MEDIUMBLOB"; "LONGTEXT"; "LONGBLOB";
          "ENUM"; "SET"; "DATE"; "TIME"; "DATETIME"; "TIMESTAMP"; "YEAR";
          "GEOMETRY"; "POINT"; "LINESTRING"; "POLYGON"; "MULTIPOINT";
          "MULTILINESTRING"; "MULTIPOLYGON"; "GEOMETRYCOLLECTION"; "JSON"]
  else if dialect =? "postgresql" then
    Some ["smallint"; "integer"; "bigint"; "decimal"; "numeric"; "real";
          "double precision";
          "smallserial"; "serial"; "bigserial"; "char"; "varchar"; "text";
          "bytea"; "timestamp"; "date"; "time"; "interval"; "boolean";
          "point"; "line"; "lseg"; "box"; "path"; "polygon"; "circle";
          "inet"; "cidr"; "macaddr"; "bit"; "uuid"; "xml"; "json"; "jsonb"]
  else if dialect =? "sqlite" then
    Some ["INTEGER"; "REAL"; "TEXT"; "BLOB"; "NUMERIC"]
  else if dialect =? "mariadb" then
    Some ["TINYINT"; "SMALLINT"; "MEDIUMINT"; "INT"; "INTEGER"; "BIGINT";
          "DECIMAL"; "NUMERIC"; "FLOAT"; "DOUBLE"; "REAL"; "BIT";
          "CHAR"; "VARCHAR"; "BINARY"; "VARBINARY"; "TINYBLOB"; "TINYTEXT";
          "TEXT"; "BLOB"; "MEDIUMTEXT"; "MEDIUMBLOB"; "LONGTEXT"; "LONGBLOB";
          "ENUM"; "SET"; "DATE"; "TIME"; "DATETIME"; "TIMESTAMP"; "YEAR"; "JSON"]
  else if dialect =? "oracle" then
    Some ["VARCHAR2"; "NVARCHAR2"; "NUMBER"; "FLOAT"; "DATE"; "TIMESTAMP";
          "CLOB"; "BLOB"; "RAW"; "LONG RAW"]
  else None.

(** The string an index method is in the source. *)
Definition indexMethodText (m : IndexMethod) : string :=
  match m with
  | BTREE => "BTREE"
  | HASH => "HASH"
  end.

(** ** [class SQLGenerator] *)

Module SQLGenerator.
Section Generator.

(** [private dialect], fixed by the constructor.  It is a string at
      run time; the five values of [SQLDialect] are the recognised ones. *)
Variable dialect : string.

Definition quoteIdentifier (identifier : string) : string :=
    if (dialect =? "mysql") || (dialect =? "mariadb") then
      "`" +:+ identifier +:+ "`"
    else if (dialect =? "postgresql") || (dialect =? "sqlite") then
      JS.DQ +:+ identifier +:+ JS.DQ
    else if dialect =? "oracle" then
      JS.DQ +:+ JS.toUpperCase identifier +:+ JS.DQ
    else identifier.

Definition formatDataType (column : Column.t) : string :=
  let dataType := Column.dataType column in
  let dataType :=
    match JS.truthy (Column.length column) with
    | Some len =>
        if JS.includes ["VARCHAR"; "CHAR"; "VARBINARY"; "BINARY"] (Column.dataType column)
        then dataType +:+ "(" +:+ len +:+ ")"
        else dataType
    | None => dataType
    end in
  let dataType :=
    if (Column.dataType column =? "DECIMAL") || (Column.dataType column =? "NUMERIC") then
      match JS.truthy (Column.length column) with
      | Some len => dataType +:+ "(" +:+ len +:+ ")"
      | None => dataType
      end
    else dataType in
  let dataType :=
    if (Column.dataType column =? "ENUM") || (Column.dataType column =? "SET") then
      match JS.truthy (Column.length column) with
      | Some len =>
          let values :=
            JS.join ", " (map (fun val => "'" +:+ JS.trim val +:+ "'") (JS.split "," len)) in
          dataType +:+ "(" +:+ values +:+ ")"
      | None => dataType
      end
    else dataType in
  dataType.

Definition getAutoIncrementSyntax : string :=
  if (dialect =? "mysql") || (dialect =? "mariadb") then " AUTO_INCREMENT"
  else if dialect =? "postgresql" then ""
  else if dialect =? "sqlite" then " AUTOINCREMENT"
  else " AUTO_INCREMENT".

Definition formatDefaultValue (value : string) : string :=
  let upperValue := JS.toUpperCase value in
  if JS.includes ["NOW()"; "CURRENT_TIMESTAMP"; "CURRENT_DATE"; "CURRENT_TIME"] upperValue then
    value
  else if value =? "NULL" then
    value
  else if negb (JS.isNaN_Number value) then
    value
  else
    "'" +:+ JS.replaceQuotes value +:+ "'".

Definition formatValue (value : Value) : string :=
  match value with
  | VNull | VUndefined => "NULL"
  | VNumber z => JS.numberToString z
  | VBoolean b => if b then "1" else "0"
  | VString s => "'" +:+ JS.replaceQuotes s +:+ "'"
  end.

(** *** Database operations *)

Definition generateCreateDatabaseSQL (database : DatabaseData.t) : string :=
  let sql := "CREATE DATABASE " +:+ quoteIdentifier (DatabaseData.name database) in
  let sql :=
    if dialect =? "mysql" then
      let sql := sql +:+ " CHARACTER SET " +:+ DatabaseData.charset database in
      sql +:+ " COLLATE " +:+ DatabaseData.collation database
    else sql in
  let sql :=
    match JS.truthy (DatabaseData.comment database) with
    | Some comment => sql +:+ " COMMENT '" +:+ JS.replaceQuotes comment +:+ "'"
    | None => sql
    end in
  sql +:+ ";".

(** *** Table operations *)

(** The callback of [columns.map] in [generateCreateTableSQL]. *)
Definition columnDefinition (column : Column.t) : string :=
  let definition :=
    "  " +:+ quoteIdentifier (Column.name column) +:+ " " +:+ formatDataType column in
  let definition :=
    if Column.isNotNull column then definition +:+ " NOT NULL" else definition in
  let definition :=
    if Column.isAutoIncrement column then definition +:+ getAutoIncrementSyntax
    else definition in
  let definition :=
    match JS.truthy (Column.defaultValue column) with
    | Some defaultValue =>
        if negb (JS.trim defaultValue =? "") then
          definition +:+ " DEFAULT " +:+ formatDefaultValue defaultValue
        else definition
    | None => definition
    end in
  let definition :=
    match JS.truthy (Column.comment column) with
    | Some comment =>
        if dialect =? "mysql" then
          definition +:+ " COMMENT '" +:+ JS.replaceQuotes comment +:+ "'"
        else definition
    | None => definition
    end in
  definition.

(** The callback of [uniqueColumns.forEach]: one [push]. *)
Definition pushUniqueKey (columnDefinitions : list string) (col : Column.t) : list string :=
  columnDefinitions ++
  ["  UNIQUE KEY " +:+ quoteIdentifier ("uk_" +:+ Column.name col) +:+
   " (" +:+ quoteIdentifier (Column.name col) +:+ ")"].

(** The callback of [foreignKeys.forEach]: one [push] when the source
    column, the target table and the target column are all found. *)
Definition pushForeignKey (table : TableData.t) (allTables : list TableData.t)
    (columnDefinitions : list string) (fk : RelationshipData.t) : list string :=
  let sourceCol :=
    List.find (fun col => Column.id col =? RelationshipData.sourceColumn fk)
              (TableData.columns table) in
  let targetTable :=
    List.find (fun t => TableData.id t =? RelationshipData.targetTable fk) allTables in
  match sourceCol, targetTable with
  | Some sourceCol, Some targetTable =>
      let targetCol :=
        List.find (fun c => Column.id c =? RelationshipData.targetColumn fk)
                  (TableData.columns targetTable) in
      match targetCol with
      | Some targetCol =>
          let constraintName :=
            "fk_" +:+ TableData.name table +:+ "_" +:+ Column.name sourceCol in
          columnDefinitions ++
          ["  CONSTRAINT " +:+ quoteIdentifier constraintName +:+
           " FOREIGN KEY (" +:+ quoteIdentifier (Column.name sourceCol) +:+
           ") REFERENCES " +:+ quoteIdentifier (TableData.name targetTable) +:+
           "(" +:+ quoteIdentifier (Column.name targetCol) +:+
           ") ON UPDATE " +:+ referentialActionText (RelationshipData.onUpdate fk) +:+
           " ON DELETE " +:+ referentialActionText (RelationshipData.onDelete fk)]
      | None => columnDefinitions
      end
  | _, _ => columnDefinitions
  end.

(** The array [columnDefinitions] of [generateCreateTableSQL] when it is
    joined: the column definitions, then the pushed constraints. *)
Definition columnDefinitions (table : TableData.t)
    (relationships : list RelationshipData.t) (allTables : list TableData.t)
    : list string :=
  let columns := TableData.columns table in
  let columnDefinitions := map columnDefinition columns in
  let primaryKeys := List.filter Column.isPrimaryKey columns in
  let columnDefinitions :=
    if (0 <? List.length primaryKeys)%nat then
      let pkNames :=
        JS.join ", " (map (fun col => quoteIdentifier (Column.name col)) primaryKeys) in
      columnDefinitions ++ ["  PRIMARY KEY (" +:+ pkNames +:+ ")"]
    else columnDefinitions in
  let uniqueColumns :=
    List.filter (fun col => Column.isUnique col && negb (Column.isPrimaryKey col)) columns in
  let columnDefinitions := fold_left pushUniqueKey uniqueColumns columnDefinitions in
  let foreignKeys :=
    List.filter (fun rel => RelationshipData.sourceTable rel =? TableData.id table)
                relationships in
  fold_left (pushForeignKey table allTables) foreignKeys columnDefinitions.

(** The table options appended after the closing parenthesis. *)
Definition tableOptions (table : TableData.t) : string :=
  let sql := "" in
  if dialect =? "mysql" then
    let sql :=
      match JS.truthy (TableData.engine table) with
      | Some engine => sql +:+ " ENGINE=" +:+ engine
      | None => sql
      end in
    let sql :=
      match JS.truthy (TableData.charset table) with
      | Some charset => sql +:+ " DEFAULT CHARSET=" +:+ charset
      | None => sql
      end in
    let sql :=
      match JS.truthy (TableData.collation table) with
      | Some collation => sql +:+ " COLLATE=" +:+ collation
      | None => sql
      end in
    let sql :=
      match TableData.autoIncrement table with
      | Some autoIncrement =>
          if (autoIncrement =? 0)%Z then sql
          else sql +:+ " AUTO_INCREMENT=" +:+ JS.numberToString autoIncrement
      | None => sql
      end in
    let sql :=
      match JS.truthy (TableData.comment table) with
      | Some comment => sql +:+ " COMMENT='" +:+ JS.replaceQuotes comment +:+ "'"
      | None => sql
      end in
    sql
  else sql.

Definition generateCreateTableSQL (table : TableData.t)
    (relationships : list RelationshipData.t) (allTables : list TableData.t) : string :=
  let sql := "CREATE TABLE " +:+ quoteIdentifier (TableData.name table) +:+ " (" +:+ JS.LF in
  let sql :=
    sql +:+ JS.join ("," +:+ JS.LF) (columnDefinitions table relationships allTables) in
  let sql := sql +:+ JS.LF +:+ ")" in
  let sql := sql +:+ tableOptions table in
  sql +:+ ";".

Definition generateFullSQL (tables : list TableData.t)
    (relationships : list RelationshipData.t) : string :=
  let sqlStatements :=
    map (fun table => generateCreateTableSQL table relationships tables) tables in
  JS.join (JS.LF +:+ JS.LF) sqlStatements.

(** *** User management *)

Definition generateCreateUserSQL (user : UserData.t) : string :=
  let sql :=
    "CREATE USER " +:+ quoteIdentifier (UserData.username user) +:+ "@" +:+
    quoteIdentifier (UserData.host user) in
  let sql :=
    match JS.truthy (UserData.password user) with
    | Some password => sql +:+ " IDENTIFIED BY '" +:+ password +:+ "'"
    | None => sql
    end in
  sql +:+ ";".



(** *** ALTER TABLE, indexes and data manipulation *)

Definition generateAlterTableSQL (table : TableData.t) (operation : string)
    (details : AlterDetails.t) : string :=
  let sql := "ALTER TABLE " +:+ quoteIdentifier (TableData.name table) in
  let sql :=
    if operation =? "ADD_COLUMN" then
      let column := AlterDetails.column details in
      let sql :=
        sql +:+ " ADD COLUMN " +:+ quoteIdentifier (Column.name column) +:+ " " +:+
        formatDataType column in
      let sql := if Column.isNotNull column then sql +:+ " NOT NULL" else sql in
      match JS.truthy (Column.defaultValue column) with
      | Some defaultValue => sql +:+ " DEFAULT " +:+ formatDefaultValue defaultValue
      | None => sql
      end
    else if operation =? "DROP_COLUMN" then
      sql +:+ " DROP COLUMN " +:+ quoteIdentifier (AlterDetails.columnName details)
    else if operation =? "MODIFY_COLUMN" then
      sql +:+ " MODIFY COLUMN " +:+
      quoteIdentifier (Column.name (AlterDetails.column details)) +:+ " " +:+
      formatDataType (AlterDetails.column details)
    else if operation =? "RENAME_COLUMN" then
      sql +:+ " RENAME COLUMN " +:+ quoteIdentifier (AlterDetails.oldName details) +:+
      " TO " +:+ quoteIdentifier (AlterDetails.newName details)
    else if operation =? "ADD_INDEX" then
      sql +:+ " ADD INDEX " +:+ quoteIdentifier (AlterDetails.indexName details) +:+
      " (" +:+ JS.join ", " (map quoteIdentifier (AlterDetails.columns details)) +:+ ")"
    else if operation =? "DROP_INDEX" then
      sql +:+ " DROP INDEX " +:+ quoteIdentifier (AlterDetails.indexName details)
    else sql in
  sql +:+ ";".

Definition generateCreateIndexSQL (index : IndexData.t) (tableName : string) : string :=
  let sql := "" in
  let sql :=
    match IndexData.type index with
    | INDEX =>
        "CREATE INDEX " +:+ quoteIdentifier (IndexData.name index) +:+
        " ON " +:+ quoteIdentifier tableName
    | UNIQUE =>
        "CREATE UNIQUE INDEX " +:+ quoteIdentifier (IndexData.name index) +:+
        " ON " +:+ quoteIdentifier tableName
    | FULLTEXT =>
        "CREATE FULLTEXT INDEX " +:+ quoteIdentifier (IndexData.name index) +:+
        " ON " +:+ quoteIdentifier tableName
    | SPATIAL =>
        "CREATE SPATIAL INDEX " +:+ quoteIdentifier (IndexData.name index) +:+
        " ON " +:+ quoteIdentifier tableName
    | PRIMARY => sql
    end in
  let sql :=
    sql +:+ " (" +:+ JS.join ", " (map quoteIdentifier (IndexData.columns index)) +:+ ")" in
  let sql :=
    match IndexData.method index with
    | Some method =>
        if dialect =? "mysql" then sql +:+ " USING " +:+ indexMethodText method else sql
    | None => sql
    end in
  sql +:+ ";".

Definition generateSelectSQL (tableName : string) (columns : option (list string))
    (whereClause orderBy : option string) (limit : option Z) : string :=
  let columns := match columns with Some columns => columns | None => ["*"] end in
  let sql :=
    "SELECT " +:+
    JS.join ", " (map (fun col => if col =? "*" then col else quoteIdentifier col) columns) in
  let sql := sql +:+ " FROM " +:+ quoteIdentifier tableName in
  let sql :=
    match JS.truthy whereClause with
    | Some w => sql +:+ " WHERE " +:+ w
    | None => sql
    end in
  let sql :=
    match JS.truthy orderBy with
    | Some o => sql +:+ " ORDER BY " +:+ o
    | None => sql
    end in
  let sql :=
    match limit with
    | Some limit =>
        if (limit =? 0)%Z then sql else sql +:+ " LIMIT " +:+ JS.numberToString limit
    | None => sql
    end in
  sql +:+ ";".

(** [data : Record<string, any>] is the list of its properties in the
    order [Object.keys], [Object.values] and [Object.entries] list them. *)
Definition generateInsertSQL (tableName : string) (data : list (string * Value)) : string :=
  let columns := map fst data in
  let values := map (fun kv => formatValue (snd kv)) data in
  let sql := "INSERT INTO " +:+ quoteIdentifier tableName in
  let sql := sql +:+ " (" +:+ JS.join ", " (map quoteIdentifier columns) +:+ ")" in
  let sql := sql +:+ " VALUES (" +:+ JS.join ", " values +:+ ")" in
  sql +:+ ";".

Definition generateUpdateSQL (tableName : string) (data : list (string * Value))
    (whereClause : string) : string :=
  let sets :=
    map (fun kv => quoteIdentifier (fst kv) +:+ " = " +:+ formatValue (snd kv)) data in
  let sql := "UPDATE " +:+ quoteIdentifier tableName in
  let sql := sql +:+ " SET " +:+ JS.join ", " sets in
  let sql := sql +:+ " WHERE " +:+ whereClause in
  sql +:+ ";".

End Generator.
End SQLGenerator.

(** ** [projectReducer]

    The reducer copies the state record ([{ ...state, ... }]) but the
    table objects are shared between the old and the new state, and the
    relationship actions assign to the [columns] property of a table
    object in place.  Table objects therefore live in a store and the
    state holds their locations; the reducer returns the new state
    together with the store it leaves behind.  A location outside the
    store stands for no object and every lookup passes over it. *)

Abbreviation loc := positive.
Abbreviation store := (gmap positive TableData.t).

Module ProjectData.
Record t : Type := mk {
  databases : list DatabaseData.t;
  tables : list loc;
  relationships : list RelationshipData.t;
  indexes : list IndexData.t;
  views : list ViewData.t;
  procedures : list StoredProcedureData.t;
  triggers : list TriggerData.t;
  users : list UserData.t;
  name : string;
  dialect : string;
  currentDatabase : option string
}.

(** [{ ...state, relationships: rs }] *)
Definition withRelationships (state : t) (rs : list RelationshipData.t) : t :=
  mk (databases state) (tables state) rs (indexes state) (views state)
     (procedures state) (triggers state) (users state) (name state)
     (dialect state) (currentDatabase state).

(** [{ ...state, tables: ts }] *)
Definition withTables (state : t) (ts : list loc) : t :=
  mk (databases state) ts (relationships state) (indexes state) (views state)
     (procedures state) (triggers state) (users state) (name state)
     (dialect state) (currentDatabase state).
End ProjectData.

Inductive ProjectAction :=
| SET_PROJECT (payload : ProjectData.t)
| SET_PROJECT_NAME (payload : string)
| SET_DIALECT (payload : string)
| SET_CURRENT_DATABASE (payload : string)
| ADD_DATABASE (payload : DatabaseData.t)
| ADD_TABLE (payload : loc)
| UPDATE_TABLE (payload : loc)
| DELETE_TABLE (payload : string)
| UPDATE_TABLE_POSITION (id : string) (position : Position)
| ADD_RELATIONSHIP (payload : RelationshipData.t)
| UPDATE_RELATIONSHIP (payload : RelationshipData.t)
| DELETE_RELATIONSHIP (payload : string)
| ADD_INDEX (payload : IndexData.t)
| ADD_VIEW (payload : ViewData.t)
| ADD_PROCEDURE (payload : StoredProcedureData.t)
| ADD_TRIGGER (payload : TriggerData.t)
| ADD_USER (payload : UserData.t)
| CLEAR_PROJECT.

Definition initialProjectState : ProjectData.t :=
  ProjectData.mk
    [DatabaseData.mk "default_db_id" "default_db" "utf8mb4" "utf8mb4_general_ci" None]
    [] [] [] [] [] [] []
    "SQL Architect Project" "mysql" (Some "default_db_id").

(** [t.id] for the table object at a location. *)
Definition tableIdAt (h : store) (l : loc) : option string :=
  TableData.id <$> h !! l.

(** [tables.find(t => t.id === tid)]: the first table object with that
    id, with its location. *)
Fixpoint findTable (h : store) (tables : list loc) (tid : string)
    : option (loc * TableData.t) :=
  match tables with
  | [] => None
  | l :: rest =>
      match h !! l with
      | Some t => if TableData.id t =? tid then Some (l, t) else findTable h rest tid
      | None => findTable h rest tid
      end
  end.

(** [targetTable.columns = cols]: assignment to a property of the
    object at [l]. *)
Definition setColumns (t : TableData.t) (cols : list Column.t) : TableData.t :=
  TableData.mk (TableData.id t) (TableData.name t) cols (TableData.position t)
    (TableData.engine t) (TableData.charset t) (TableData.collation t)
    (TableData.comment t) (TableData.autoIncrement t).

(** [{ ...t, position }] *)
Definition setPosition (t : TableData.t) (p : Position) : TableData.t :=
  TableData.mk (TableData.id t) (TableData.name t) (TableData.columns t) p
    (TableData.engine t) (TableData.charset t) (TableData.collation t)
    (TableData.comment t) (TableData.autoIncrement t).

(** [{ ...c, isForeignKey: fk, referencesTable: rt, referencesColumn: rc }] *)
Definition setForeignKey (c : Column.t) (fk : option bool) (rt rc : option string)
    : Column.t :=
  Column.mk (Column.id c) (Column.name c) (Column.dataType c) (Column.length c)
    (Column.isPrimaryKey c) (Column.isNotNull c) (Column.isAutoIncrement c)
    (Column.isUnique c) (Column.defaultValue c) fk rt rc
    (Column.comment c) (Column.collation c) (Column.charset c).

(** The callback of [columns.map] in [ADD_RELATIONSHIP]. *)
Definition markColumn (payload : RelationshipData.t) (c : Column.t) : Column.t :=
  if Column.id c =? RelationshipData.targetColumn payload then
    setForeignKey c (Some true)
      (Some (RelationshipData.sourceTable payload))
      (Some (RelationshipData.sourceColumn payload))
  else c.

(** The callback of [columns.map] in [DELETE_RELATIONSHIP]. *)
Definition unmarkColumn (relToDelete : RelationshipData.t) (c : Column.t) : Column.t :=
  if Column.id c =? RelationshipData.targetColumn relToDelete then
    setForeignKey c (Some false) None None
  else c.

(** [tables.map(t => t.id === id ? { ...t, position } : t)]: every
    matching table is replaced by a new object. *)
Fixpoint updatePositions (h : store) (id : string) (p : Position) (tables : list loc)
    : list loc * store :=
  match tables with
  | [] => ([], h)
  | l :: rest =>
      match h !! l with
      | Some t =>
          if TableData.id t =? id then
            let l' := fresh (dom h) in
            let '(rest', h') := updatePositions (<[l' := setPosition t p]> h) id p rest in
            (l' :: rest', h')
          else
            let '(rest', h') := updatePositions h id p rest in (l :: rest', h')
      | None =>
          let '(rest', h') := updatePositions h id p rest in (l :: rest', h')
      end
  end.

Definition projectReducer (h : store) (state : ProjectData.t) (action : ProjectAction)
    : ProjectData.t * store :=
  match action with
  | SET_PROJECT payload => (payload, h)
  | SET_PROJECT_NAME payload =>
      (ProjectData.mk (ProjectData.databases state) (ProjectData.tables state)
         (ProjectData.relationships state) (ProjectData.indexes state)
         (ProjectData.views state) (ProjectData.procedures state)
         (ProjectData.triggers state) (ProjectData.users state)
         payload (ProjectData.dialect state) (ProjectData.currentDatabase state), h)
  | SET_DIALECT payload =>
      (ProjectData.mk (ProjectData.databases state) (ProjectData.tables state)
         (ProjectData.relationships state) (ProjectData.indexes state)
         (ProjectData.views state) (ProjectData.procedures state)
         (ProjectData.triggers state) (ProjectData.users state)
         (ProjectData.name state) payload (ProjectData.currentDatabase state), h)
  | SET_CURRENT_DATABASE payload =>
      (ProjectData.mk (ProjectData.databases state) (ProjectData.tables state)
         (ProjectData.relationships state) (ProjectData.indexes state)
         (ProjectData.views state) (ProjectData.procedures state)
         (ProjectData.triggers state) (ProjectData.users state)
         (ProjectData.name state) (ProjectData.dialect state) (Some payload), h)
  | ADD_DATABASE payload =>
      (ProjectData.mk (ProjectData.databases state ++ [payload])
         (ProjectData.tables state)
         (ProjectData.relationships state) (ProjectData.indexes state)
         (ProjectData.views state) (ProjectData.procedures state)
         (ProjectData.triggers state) (ProjectData.users state)
         (ProjectData.name state) (ProjectData.dialect state)
         (ProjectData.currentDatabase state), h)
  | ADD_TABLE payload =>
      (ProjectData.withTables state (ProjectData.tables state ++ [payload]), h)
  | UPDATE_TABLE payload =>
      (ProjectData.withTables state
         (map (fun l =>
                 match tableIdAt h l, tableIdAt h payload with
                 | Some i, Some j => if i =? j then payload else l
                 | _, _ => l
                 end)
              (ProjectData.tables state)), h)
  | DELETE_TABLE payload =>
      (ProjectData.mk (ProjectData.databases state)
         (List.filter (fun l =>
                         match tableIdAt h l with
                         | Some i => negb (i =? payload)
                         | None => true
                         end)
                      (ProjectData.tables state))
         (List.filter (fun r =>
                         negb (RelationshipData.sourceTable r =? payload) &&
                         negb (RelationshipData.targetTable r =? payload))
                      (ProjectData.relationships state))
         (List.filter (fun i => negb (IndexData.tableId i =? payload))
                      (ProjectData.indexes state))
         (ProjectData.views state) (ProjectData.procedures state)
         (List.filter (fun t => negb (TriggerData.tableId t =? payload))
                      (ProjectData.triggers state))
         (ProjectData.users state)
         (ProjectData.name state) (ProjectData.dialect state)
         (ProjectData.currentDatabase state), h)
  | UPDATE_TABLE_POSITION id position =>
      let '(tables', h') := updatePositions h id position (ProjectData.tables state) in
      (ProjectData.withTables state tables', h')
  | ADD_RELATIONSHIP payload =>
      let newState :=
        ProjectData.withRelationships state
          (ProjectData.relationships state ++ [payload]) in
      match findTable h (ProjectData.tables newState)
                      (RelationshipData.targetTable payload) with
      | Some (l, targetTable) =>
          (newState,
           <[l := setColumns targetTable
                    (map (markColumn payload) (TableData.columns targetTable))]> h)
      | None => (newState, h)
      end
  | UPDATE_RELATIONSHIP payload =>
      (ProjectData.withRelationships state
         (map (fun r =>
                 if RelationshipData.id r =? RelationshipData.id payload
                 then payload else r)
              (ProjectData.relationships state)), h)
  | DELETE_RELATIONSHIP payload =>
      let relToDelete :=
        List.find (fun r => RelationshipData.id r =? payload)
                  (ProjectData.relationships state) in
      let newState :=
        ProjectData.withRelationships state
          (List.filter (fun r => negb (RelationshipData.id r =? payload))
                       (ProjectData.relationships state)) in
      match relToDelete with
      | Some relToDelete =>
          match findTable h (ProjectData.tables newState)
                          (RelationshipData.targetTable relToDelete) with
          | Some (l, targetTable) =>
              (newState,
               <[l := setColumns targetTable
                        (map (unmarkColumn relToDelete)
                             (TableData.columns targetTable))]> h)
          | None => (newState, h)
          end
      | None => (newState, h)
      end
  | ADD_INDEX payload =>
      (ProjectData.mk (ProjectData.databases state) (ProjectData.tables state)
         (ProjectData.relationships state) (ProjectData.indexes state ++ [payload])
         (ProjectData.views state) (ProjectData.procedures state)
         (ProjectData.triggers state) (ProjectData.users state)
         (ProjectData.name state) (ProjectData.dialect state)
         (ProjectData.currentDatabase state), h)
  | ADD_VIEW payload =>
      (ProjectData.mk (ProjectData.databases state) (ProjectData.tables state)
         (ProjectData.relationships state) (ProjectData.indexes state)
         (ProjectData.views state ++ [payload]) (ProjectData.procedures state)
         (ProjectData.triggers state) (ProjectData.users state)
         (ProjectData.name state) (ProjectData.dialect state)
         (ProjectData.currentDatabase state), h)
  | ADD_PROCEDURE payload =>
      (ProjectData.mk (ProjectData.databases state) (ProjectData.tables state)
         (ProjectData.relationships state) (ProjectData.indexes state)
         (ProjectData.views state) (ProjectData.procedures state ++ [payload])
         (ProjectData.triggers state) (ProjectData.users state)
         (ProjectData.name state) (ProjectData.dialect state)
         (ProjectData.currentDatabase state), h)
  | ADD_TRIGGER payload =>
      (ProjectData.mk (ProjectData.databases state) (ProjectData.tables state)
         (ProjectData.relationships state) (ProjectData.indexes state)
         (ProjectData.views state) (ProjectData.procedures state)
         (ProjectData.triggers state ++ [payload]) (ProjectData.users state)
         (ProjectData.name state) (ProjectData.dialect state)
         (ProjectData.currentDatabase state), h)
  | ADD_USER payload =>
      (ProjectData.mk (ProjectData.databases state) (ProjectData.tables state)
         (ProjectData.relationships state) (ProjectData.indexes state)
         (ProjectData.views state) (ProjectData.procedures state)
         (ProjectData.triggers state) (ProjectData.users state ++ [payload])
         (ProjectData.name state) (ProjectData.dialect state)
         (ProjectData.currentDatabase state), h)
  | CLEAR_PROJECT => (initialProjectState, h)
  end.

(** The table objects a state refers to, as the components that read
    [project.tables] see them. *)
Definition readTables (h : store) (state : ProjectData.t) : list TableData.t :=
  omap (fun l => h !! l) (ProjectData.tables state).

(** ** Components: [TableNode] and [AdvancedTableEditor] *)

(** [getDataTypeDisplay] of [TableNode]. *)
Definition getDataTypeDisplay (column : Column.t) : string :=
  let display := Column.dataType column in
  match JS.truthy (Column.length column) with
  | Some len =>
      if JS.includes ["VARCHAR"; "CHAR"; "DECIMAL"; "VARBINARY"; "BINARY"]
                     (JS.toUpperCase (Column.dataType column))
      then display +:+ "(" +:+ len +:+ ")"
      else display
  | None => display
  end.

Inductive MoveDirection := MoveUp | MoveDown.

(** [moveColumn] of [AdvancedTableEditor] returns the array it hands to
    [setColumns]; a call that returns early leaves the array as it is. *)
Definition moveColumn (columns : list Column.t) (id : string)
    (direction : MoveDirection) : list Column.t :=
  match JS.findIndex (fun col => Column.id col =? id) columns with
  | None => columns
  | Some index =>
      let newIndex : Z :=
        match direction with
        | MoveUp => (Z.of_nat index - 1)%Z
        | MoveDown => (Z.of_nat index + 1)%Z
        end in
      if (newIndex <? 0)%Z || (Z.of_nat (List.length columns) <=? newIndex)%Z then columns
      else
        match columns !! index, columns !! Z.to_nat newIndex with
        | Some atIndex, Some atNewIndex =>
            <[Z.to_nat newIndex := atIndex]> (<[index := atNewIndex]> columns)
        | _, _ => columns
        end
  end.

(** ** Statements of the specification, and sample data *)

(** "appends the CHARACTER SET and COLLATE clauses exactly when the
    dialect is in the MySQL family (MySQL or MariaDB), and a COMMENT
    clause exactly when the comment field is present". *)
Definition spec_createDatabase (dialect : string) (database : DatabaseData.t) : string :=
  "CREATE DATABASE " +:+ SQLGenerator.quoteIdentifier dialect (DatabaseData.name database) +:+
  (if (dialect =? "mysql") || (dialect =? "mariadb")
   then " CHARACTER SET " +:+ DatabaseData.charset database +:+
        " COLLATE " +:+ DatabaseData.collation database
   else "") +:+
  (match DatabaseData.comment database with
   | Some comment => " COMMENT '" +:+ JS.replaceQuotes comment +:+ "'"
   | None => ""
   end) +:+
  ";".

(** "one PRIMARY KEY constraint whose column list contains exactly the
    quoted names of the columns flagged primary key, in table-column
    order": the constraint for the columns of a table. *)
Definition spec_primaryKeyConstraint (dialect : string) (columns : list Column.t) : string :=
  "  PRIMARY KEY (" +:+
  JS.join ", "
    (map (fun col => SQLGenerator.quoteIdentifier dialect (Column.name col))
         (List.filter Column.isPrimaryKey columns)) +:+
  ")".

(** "one of the tokens NOW(), CURRENT_TIMESTAMP, CURRENT_DATE,
    CURRENT_TIME compared case-insensitively, or the literal NULL, or
    parses as a number". *)
Definition spec_unquotedDefault (value : string) : Prop :=
  (exists token,
      In token ["NOW()"; "CURRENT_TIMESTAMP"; "CURRENT_DATE"; "CURRENT_TIME"] /\
      JS.toUpperCase value = JS.toUpperCase token) \/
  value = "NULL" \/
  JS.isNaN_Number value = false.

Module Sample.

Definition column (id name dataType : string) (isPrimaryKey : bool) : Column.t :=
  Column.mk id name dataType None isPrimaryKey false false false
            None None None None None None None.

Definition origin : Position := {| pos_x := 0; pos_y := 0 |}.

(** Table A with column [a_id] and table B with column [b_id]. *)
Definition tableA : TableData.t :=
  TableData.mk "A" "table_a" [column "a_id" "a_id" "INT" true]
               origin None None None None None.

Definition tableB : TableData.t :=
  TableData.mk "B" "table_b"
               [column "b_pk" "id" "INT" true; column "b_id" "b_id" "INT" false]
               origin None None None None None.

(** A table without a primary key. *)
Definition notes : TableData.t :=
  TableData.mk "N" "notes" [column "n1" "body" "TEXT" false]
               origin None None None None None.

(** A table without columns. *)
Definition blank : TableData.t :=
  TableData.mk "E" "new_table" [] origin (Some "InnoDB") (Some "utf8mb4")
               (Some "utf8mb4_general_ci") None None.

Definition relAB : RelationshipData.t :=
  RelationshipData.mk "r1" "A" "B" "a_id" "b_id" OneToMany CASCADE RESTRICT.

(** A relationship of table A whose target column does not exist. *)
Definition relDangling : RelationshipData.t :=
  RelationshipData.mk "r2" "A" "B" "a_id" "gone" OneToMany CASCADE RESTRICT.

Definition heap : store := <[2%positive := tableB]> (<[1%positive := tableA]> ∅).

Definition project : ProjectData.t :=
  ProjectData.withTables initialProjectState [1%positive; 2%positive].

Definition database (comment : option string) : DatabaseData.t :=
  DatabaseData.mk "d1" "shop" "utf8mb4" "utf8mb4_general_ci" comment.

Definition user : UserData.t :=
  UserData.mk "u1" "app" "localhost" (Some "pa'ss") ["SELECT"; "INSERT"] None.

Definition enumColumn : Column.t :=
  Column.mk "c1" "kind" "ENUM" (Some "it's, ok") false false false false
            None None None None None None None.

End Sample.

(** More sample data. *)
Module Fixture.

(** A PostgreSQL column of type [varchar] with a length. *)
Definition email : Column.t :=
  Column.mk "c1" "email" "varchar" (Some "255") false true false false
            None None None None None None None.

Definition price : Column.t :=
  Column.mk "c2" "price" "DECIMAL" (Some "10,2") false true false false
            None None None None None None None.

(** A second relationship that ends at B.b_id, and a state with both. *)
Definition relAB2 : RelationshipData.t :=
  RelationshipData.mk "r3" "A" "B" "a_id" "b_id" OneToOne CASCADE CASCADE.

Definition twoRelationships : ProjectData.t :=
  ProjectData.withRelationships Sample.project [Sample.relAB; relAB2].

(** The sample store with the foreign-key fields of B's columns clear. *)
Definition clearHeap : store :=
  <[2%positive := setColumns Sample.tableB
                    (map (unmarkColumn Sample.relAB) (TableData.columns Sample.tableB))]>
    Sample.heap.



End Fixture.

(** ** Strings and lists *)

Lemma append_cons (x : ascii) (a b : string) : String x a +:+ b = String x (a +:+ b).
Proof. reflexivity. Qed.

Lemma append_nil_l (a : string) : "" +:+ a = a.
Proof. reflexivity. Qed.

Lemma append_assoc (a b c : string) : (a +:+ b) +:+ c = a +:+ (b +:+ c).
Proof.
  induction a as [|x a IH]; [reflexivity |].
  rewrite !append_cons. f_equal. exact IH.
Qed.

Lemma append_nil_r (a : string) : a +:+ "" = a.
Proof.
  induction a as [|x a IH]; [reflexivity |].
  rewrite append_cons. f_equal. exact IH.
Qed.

Lemma append_char_inj (a b : string) (c : ascii) :
  a +:+ String c "" = b +:+ String c "" -> a = b.
Proof.
  revert b; induction a as [|x a IH]; intros [|y b] H;
    rewrite ?append_cons, ?append_nil_l in H.
  - reflexivity.
  - injection H as _ H. destruct b; discriminate H.
  - injection H as _ H. destruct a; discriminate H.
  - injection H as -> H. f_equal. now apply IH.
Qed.

Lemma truthy_Some (o : option string) (s : string) :
  JS.truthy o = Some s <-> o = Some s /\ s <> "".
Proof.
  destruct o as [[|c r]|]; simpl; split.
  - discriminate.
  - intros [[= <-] H]. now contradiction H.
  - intros [= <-]. split; [reflexivity | discriminate].
  - now intros [[= <-] _].
  - discriminate.
  - intros [H _]; discriminate H.
Qed.

(** ** Identifier quoting *)

(** C2, as stated, fails: the identifier [ID] has no lower-case letter,
    so PostgreSQL and Oracle quote it to the same text. *)
Lemma quoteIdentifier_postgresql_oracle_agree :
  ~ (forall identifier : string,
        SQLGenerator.quoteIdentifier "mysql" identifier <>
        SQLGenerator.quoteIdentifier "postgresql" identifier /\
        SQLGenerator.quoteIdentifier "mysql" identifier <>
        SQLGenerator.quoteIdentifier "oracle" identifier /\
        SQLGenerator.quoteIdentifier "postgresql" identifier <>
        SQLGenerator.quoteIdentifier "oracle" identifier).
Proof.
  intros H. destruct (H "ID") as (_ & _ & Hne). now apply Hne.
Qed.

(** C2, amended: for every identifier the MySQL quoting differs from the
    PostgreSQL quoting and from the Oracle quoting; the PostgreSQL and
    Oracle quotings are equal exactly when upper-casing leaves the
    identifier unchanged. *)
Theorem quoteIdentifier_dialects (identifier : string) :
  SQLGenerator.quoteIdentifier "mysql" identifier <>
  SQLGenerator.quoteIdentifier "postgresql" identifier /\
  SQLGenerator.quoteIdentifier "mysql" identifier <>
  SQLGenerator.quoteIdentifier "oracle" identifier /\
  (SQLGenerator.quoteIdentifier "postgresql" identifier =
   SQLGenerator.quoteIdentifier "oracle" identifier <->
   JS.toUpperCase identifier = identifier).
Proof.
  unfold SQLGenerator.quoteIdentifier; simpl.
  split; [discriminate | split; [discriminate |]].
  split.
  - intros [= H]. symmetry. now apply append_char_inj in H.
  - intros ->. reflexivity.
Qed.

(** ** Users and privileges *)


(** C4: the password of [generateCreateUserSQL] and the members of an
    ENUM or SET list in [formatDataType] are wrapped in single quotes
    with their own single quotes left as they are, whereas [formatValue]
    and [formatDefaultValue] double them. *)
Theorem generator_quoted_values_not_escaped :
  SQLGenerator.generateCreateUserSQL "mysql" Sample.user =
    "CREATE USER `app`@`localhost` IDENTIFIED BY 'pa'ss';" /\
  SQLGenerator.formatDataType Sample.enumColumn = "ENUM('it's', 'ok')" /\
  SQLGenerator.formatValue (VString "pa'ss") = "'pa''ss'" /\
  SQLGenerator.formatDefaultValue "it's" = "'it''s'".
Proof. repeat split; vm_compute; reflexivity. Qed.

(** ** Default values *)

Lemma includes_true (l : list string) (s : string) :
  JS.includes l s = true <-> In s l.
Proof.
  unfold JS.includes. rewrite existsb_exists. split.
  - intros (x & Hin & Heq). apply String.eqb_eq in Heq. now subst.
  - intros Hin. exists s. split; [exact Hin | apply String.eqb_refl].
Qed.

Lemma keyword_includes (value : string) :
  JS.includes ["NOW()"; "CURRENT_TIMESTAMP"; "CURRENT_DATE"; "CURRENT_TIME"]
              (JS.toUpperCase value) = true <->
  exists token,
    In token ["NOW()"; "CURRENT_TIMESTAMP"; "CURRENT_DATE"; "CURRENT_TIME"] /\
    JS.toUpperCase value = JS.toUpperCase token.
Proof.
  rewrite includes_true. split.
  - intros Hin. exists (JS.toUpperCase value). split; [exact Hin |].
    simpl in Hin. destruct Hin as [<- | [<- | [<- | [<- | []]]]]; reflexivity.
  - intros (token & Hin & ->).
    simpl in Hin. destruct Hin as [<- | [<- | [<- | [<- | []]]]];
      vm_compute; tauto.
Qed.

(** C5: a default value that is one of the four tokens up to case, the
    literal NULL, or a numeric literal is emitted as it is; any other
    value is emitted between single quotes with its single quotes
    doubled. *)
Theorem formatDefaultValue_quoting (value : string) :
  value <> "" ->
  (spec_unquotedDefault value -> SQLGenerator.formatDefaultValue value = value) /\
  (~ spec_unquotedDefault value ->
   SQLGenerator.formatDefaultValue value = "'" +:+ JS.replaceQuotes value +:+ "'").
Proof.
  intros _. unfold spec_unquotedDefault, SQLGenerator.formatDefaultValue.
  destruct (JS.includes _ (JS.toUpperCase value)) eqn:Hkw.
  { split; [reflexivity |]. intros Hn. contradict Hn. left.
    now apply keyword_includes. }
  destruct (String.eqb_spec value "NULL") as [Hnull | Hnull].
  { split; [reflexivity |]. intros Hn. contradict Hn. right; now left. }
  destruct (JS.isNaN_Number value) eqn:Hnan; simpl.
  - split; [| reflexivity].
    intros [Hex | [H | H]].
    + apply keyword_includes in Hex. congruence.
    + contradiction.
    + discriminate.
  - split; [reflexivity |]. intros Hn. contradict Hn. right; now right.
Qed.

Lemma formatDefaultValue_quoting_witness :
  "O'Brien" <> "" /\
  SQLGenerator.formatDefaultValue "O'Brien" = "'O''Brien'" /\
  SQLGenerator.formatDefaultValue "now()" = "now()".
Proof.
  split; [discriminate |]. split.
  - apply (formatDefaultValue_quoting "O'Brien"); [discriminate |].
    intros [(token & Hin & Hup) | [H | H]]; [| discriminate H | discriminate H].
    simpl in Hin.
    destruct Hin as [<- | [<- | [<- | [<- | []]]]]; vm_compute in Hup; discriminate Hup.
  - apply (formatDefaultValue_quoting "now()"); [discriminate |].
    left. exists "NOW()". split; [now left | reflexivity].
Defined.

Example formatDefaultValue_scenario :
  SQLGenerator.formatDefaultValue "NOW()" = "NOW()" /\
  SQLGenerator.formatDefaultValue "hello" = "'hello'" /\
  SQLGenerator.formatDefaultValue "O'Brien" = "'O''Brien'" /\
  SQLGenerator.formatDefaultValue "current_timestamp" = "current_timestamp" /\
  SQLGenerator.formatDefaultValue "NULL" = "NULL" /\
  SQLGenerator.formatDefaultValue "-12.5e3" = "-12.5e3".
Proof. repeat split; vm_compute; reflexivity. Qed.

(** ** CREATE DATABASE *)

(** C3, as stated, fails: under MariaDB no CHARACTER SET and COLLATE
    clauses are written, and an empty comment writes no COMMENT clause. *)
Lemma createDatabase_mariadb_no_charset :
  SQLGenerator.generateCreateDatabaseSQL "mariadb" (Sample.database None) =
    "CREATE DATABASE `shop`;" /\
  SQLGenerator.generateCreateDatabaseSQL "mariadb" (Sample.database None) <>
    spec_createDatabase "mariadb" (Sample.database None) /\
  SQLGenerator.generateCreateDatabaseSQL "mysql" (Sample.database (Some "")) <>
    spec_createDatabase "mysql" (Sample.database (Some "")).
Proof. repeat split; vm_compute; congruence. Qed.

(** C3, amended: the statement is [CREATE DATABASE <quoted-name>],
    followed by the CHARACTER SET and COLLATE clauses exactly when the
    dialect is [mysql], followed by a COMMENT clause with single quotes
    doubled exactly when the comment is present and not empty, followed
    by [;]. *)
Theorem generateCreateDatabaseSQL_shape (dialect : string) (database : DatabaseData.t) :
  SQLGenerator.generateCreateDatabaseSQL dialect database =
  "CREATE DATABASE " +:+
  SQLGenerator.quoteIdentifier dialect (DatabaseData.name database) +:+
  (if dialect =? "mysql"
   then " CHARACTER SET " +:+ DatabaseData.charset database +:+
        " COLLATE " +:+ DatabaseData.collation database
   else "") +:+
  (match DatabaseData.comment database with
   | Some comment =>
       if comment =? "" then ""
       else " COMMENT '" +:+ JS.replaceQuotes comment +:+ "'"
   | None => ""
   end) +:+
  ";".
Proof.
  unfold SQLGenerator.generateCreateDatabaseSQL.
  destruct (dialect =? "mysql");
    destruct (DatabaseData.comment database) as [[|c r]|]; simpl;
    rewrite ?append_assoc, ?append_nil_l; reflexivity.
Qed.

(** ** CREATE TABLE *)

Lemma find_absent {A : Type} (f : A -> bool) (l : list A) :
  (forall x, In x l -> f x = false) -> List.find f l = None.
Proof.
  induction l as [|a l IH]; intros H; simpl; [reflexivity |].
  rewrite (H a (or_introl eq_refl)). apply IH. intros x Hx. apply H. now right.
Qed.

Section CreateTable.

Variable dialect : string.
Variable table : TableData.t.
Variable allTables : list TableData.t.

(** Each callback of the two [forEach] loops appends to the array and
    never reads it, so a loop appends the lines of its elements. *)
Lemma pushForeignKey_app (defs : list string) (fk : RelationshipData.t) :
  SQLGenerator.pushForeignKey dialect table allTables defs fk =
  defs ++ SQLGenerator.pushForeignKey dialect table allTables [] fk.
Proof.
  unfold SQLGenerator.pushForeignKey.
  destruct (List.find _ (TableData.columns table)) as [sourceCol|];
    [| now rewrite List.app_nil_r].
  destruct (List.find _ allTables) as [targetTable|];
    [| now rewrite List.app_nil_r].
  destruct (List.find _ (TableData.columns targetTable)) as [targetCol|];
    [reflexivity | now rewrite List.app_nil_r].
Qed.

Lemma fold_pushForeignKey (fks : list RelationshipData.t) (defs : list string) :
  fold_left (SQLGenerator.pushForeignKey dialect table allTables) fks defs =
  defs ++ flat_map (SQLGenerator.pushForeignKey dialect table allTables []) fks.
Proof.
  revert defs; induction fks as [|fk fks IH]; intros defs; simpl.
  - now rewrite List.app_nil_r.
  - rewrite IH, pushForeignKey_app, <- List.app_assoc. reflexivity.
Qed.

Lemma pushUniqueKey_app (defs : list string) (col : Column.t) :
  SQLGenerator.pushUniqueKey dialect defs col =
  defs ++ SQLGenerator.pushUniqueKey dialect [] col.
Proof. reflexivity. Qed.

Lemma fold_pushUniqueKey (cols : list Column.t) (defs : list string) :
  fold_left (SQLGenerator.pushUniqueKey dialect) cols defs =
  defs ++ flat_map (SQLGenerator.pushUniqueKey dialect []) cols.
Proof.
  revert defs; induction cols as [|col cols IH]; intros defs; simpl.
  - now rewrite List.app_nil_r.
  - rewrite IH, (pushUniqueKey_app defs col), <- List.app_assoc. reflexivity.
Qed.

(** A relationship one of whose three lookups fails pushes nothing. *)
Lemma pushForeignKey_dangling (defs : list string) (fk : RelationshipData.t) :
  (forall col, In col (TableData.columns table) ->
               Column.id col <> RelationshipData.sourceColumn fk) \/
  (forall t, In t allTables -> TableData.id t <> RelationshipData.targetTable fk) \/
  (forall targetTable,
      List.find (fun t => TableData.id t =? RelationshipData.targetTable fk) allTables
        = Some targetTable ->
      forall c, In c (TableData.columns targetTable) ->
                Column.id c <> RelationshipData.targetColumn fk) ->
  SQLGenerator.pushForeignKey dialect table allTables defs fk = defs.
Proof.
  intros H. unfold SQLGenerator.pushForeignKey.
  destruct H as [H | [H | H]].
  - rewrite find_absent; [reflexivity |].
    intros col Hin. apply String.eqb_neq. now apply H.
  - rewrite (find_absent _ allTables).
    + now destruct (List.find _ (TableData.columns table)).
    + intros t Hin. apply String.eqb_neq. now apply H.
  - destruct (List.find _ (TableData.columns table)) as [sourceCol|]; [| reflexivity].
    destruct (List.find _ allTables) as [targetTable|] eqn:Ht; [| reflexivity].
    rewrite find_absent; [reflexivity |].
    intros c Hin. apply String.eqb_neq. now apply (H targetTable eq_refl).
Qed.

End CreateTable.

(** C1: a relationship of the table whose source column, target table
    or target column is not found by its identifier adds nothing to the
    statement: [generateCreateTableSQL] returns the text it returns
    without that relationship.  The function is total: it returns a
    string for every input. *)
Theorem createTable_omits_dangling_foreign_key
    (dialect : string) (table : TableData.t) (allTables : list TableData.t)
    (before after : list RelationshipData.t) (fk : RelationshipData.t) :
  RelationshipData.sourceTable fk = TableData.id table ->
  (forall col, In col (TableData.columns table) ->
               Column.id col <> RelationshipData.sourceColumn fk) \/
  (forall t, In t allTables -> TableData.id t <> RelationshipData.targetTable fk) \/
  (forall targetTable,
      List.find (fun t => TableData.id t =? RelationshipData.targetTable fk) allTables
        = Some targetTable ->
      forall c, In c (TableData.columns targetTable) ->
                Column.id c <> RelationshipData.targetColumn fk) ->
  SQLGenerator.columnDefinitions dialect table (before ++ fk :: after) allTables =
  SQLGenerator.columnDefinitions dialect table (before ++ after) allTables /\
  SQLGenerator.generateCreateTableSQL dialect table (before ++ fk :: after) allTables =
  SQLGenerator.generateCreateTableSQL dialect table (before ++ after) allTables.
Proof.
  intros Hsrc Hdangling.
  assert (Hdefs :
    SQLGenerator.columnDefinitions dialect table (before ++ fk :: after) allTables =
    SQLGenerator.columnDefinitions dialect table (before ++ after) allTables).
  { unfold SQLGenerator.columnDefinitions.
    rewrite !List.filter_app.
    assert (Hhead :
      List.filter (fun rel => RelationshipData.sourceTable rel =? TableData.id table)
                  (fk :: after) =
      fk :: List.filter
              (fun rel => RelationshipData.sourceTable rel =? TableData.id table) after).
    { simpl. now rewrite Hsrc, String.eqb_refl. }
    rewrite Hhead.
    rewrite !fold_pushForeignKey, !flat_map_app. simpl flat_map.
    rewrite (pushForeignKey_dangling dialect table allTables [] fk Hdangling).
    reflexivity. }
  split; [exact Hdefs |].
  unfold SQLGenerator.generateCreateTableSQL. now rewrite Hdefs.
Qed.

Lemma createTable_omits_dangling_foreign_key_witness :
  SQLGenerator.generateCreateTableSQL "mysql" Sample.tableA
    ([] ++ Sample.relDangling :: [Sample.relAB]) [Sample.tableA; Sample.tableB] =
  SQLGenerator.generateCreateTableSQL "mysql" Sample.tableA
    ([] ++ [Sample.relAB]) [Sample.tableA; Sample.tableB].
Proof.
  apply (createTable_omits_dangling_foreign_key "mysql" Sample.tableA
           [Sample.tableA; Sample.tableB] [] [Sample.relAB] Sample.relDangling).
  - reflexivity.
  - right; right. intros targetTable Hfind c Hin.
    vm_compute in Hfind. injection Hfind as <-.
    simpl in Hin. destruct Hin as [<- | [<- | []]]; vm_compute; discriminate.
Defined.

Example createTable_with_foreign_key :
  SQLGenerator.generateCreateTableSQL "mysql" Sample.tableA
    [Sample.relDangling; Sample.relAB] [Sample.tableA; Sample.tableB] =
  "CREATE TABLE `table_a` (" +:+ JS.LF +:+
  "  `a_id` INT," +:+ JS.LF +:+
  "  PRIMARY KEY (`a_id`)," +:+ JS.LF +:+
  "  CONSTRAINT `fk_table_a_a_id` FOREIGN KEY (`a_id`) REFERENCES `table_b`(`b_id`) ON UPDATE CASCADE ON DELETE RESTRICT" +:+ JS.LF +:+
  ");".
Proof. vm_compute. reflexivity. Qed.

Lemma prefix_append (p s : string) : String.prefix p (p +:+ s) = true.
Proof.
  induction p as [|a p IH]; [now destruct s |].
  rewrite append_cons. simpl.
  destruct (ascii_dec a a) as [_ | Hne]; [exact IH | now contradiction Hne].
Qed.

Lemma pushUniqueKey_prefix (dialect : string) (cols : list Column.t) :
  Forall (fun line => String.prefix "  UNIQUE KEY " line = true)
         (flat_map (SQLGenerator.pushUniqueKey dialect []) cols).
Proof.
  induction cols as [|col cols IH]; simpl; [constructor |].
  constructor; [apply prefix_append | exact IH].
Qed.

Lemma pushForeignKey_prefix (dialect : string) (table : TableData.t)
    (allTables : list TableData.t) (fks : list RelationshipData.t) :
  Forall (fun line => String.prefix "  CONSTRAINT " line = true)
         (flat_map (SQLGenerator.pushForeignKey dialect table allTables []) fks).
Proof.
  induction fks as [|fk fks IH]; simpl; [constructor |].
  apply Forall_app. split; [| exact IH].
  unfold SQLGenerator.pushForeignKey.
  destruct (List.find _ (TableData.columns table)) as [sourceCol|]; [| constructor].
  destruct (List.find _ allTables) as [targetTable|]; [| constructor].
  destruct (List.find _ (TableData.columns targetTable)) as [targetCol|]; [| constructor].
  constructor; [apply prefix_append | constructor].
Qed.

(** C6, as stated, fails: for a table without a primary-key column no
    PRIMARY KEY constraint is appended, not even an empty one. *)
Lemma createTable_without_primary_key :
  ~ (forall dialect table relationships allTables,
        In (spec_primaryKeyConstraint dialect (TableData.columns table))
           (SQLGenerator.columnDefinitions dialect table relationships allTables)).
Proof.
  intros H. specialize (H "mysql" Sample.notes [] [Sample.notes]).
  vm_compute in H. destruct H as [H | []]. discriminate H.
Qed.

Example notes_table_text :
  SQLGenerator.generateCreateTableSQL "mysql" Sample.notes [] [Sample.notes] =
  "CREATE TABLE `notes` (" +:+ JS.LF +:+ "  `body` TEXT" +:+ JS.LF +:+ ");".
Proof. vm_compute. reflexivity. Qed.

(** C6, amended: the lines of the statement body are the column
    definitions in table order, then, when at least one column is
    flagged primary key, exactly one PRIMARY KEY constraint listing the
    quoted names of the flagged columns in table-column order, then the
    UNIQUE KEY and FOREIGN KEY constraints; when no column is flagged
    there is no PRIMARY KEY constraint. *)
Theorem createTable_primary_key
    (dialect : string) (table : TableData.t)
    (relationships : list RelationshipData.t) (allTables : list TableData.t) :
  exists constraints,
    Forall (fun line => String.prefix "  UNIQUE KEY " line = true \/
                        String.prefix "  CONSTRAINT " line = true) constraints /\
    SQLGenerator.columnDefinitions dialect table relationships allTables =
      map (SQLGenerator.columnDefinition dialect) (TableData.columns table) ++
      (match List.filter Column.isPrimaryKey (TableData.columns table) with
       | [] => []
       | _ :: _ => [spec_primaryKeyConstraint dialect (TableData.columns table)]
       end) ++
      constraints.
Proof.
  unfold SQLGenerator.columnDefinitions.
  rewrite fold_pushForeignKey, fold_pushUniqueKey.
  eexists (_ ++ _). split.
  - apply Forall_app. split.
    + eapply List.Forall_impl; [| apply pushUniqueKey_prefix].
      intros line Hl; now left.
    + eapply List.Forall_impl; [| apply pushForeignKey_prefix].
      intros line Hl; now right.
  - unfold spec_primaryKeyConstraint.
    destruct (List.filter Column.isPrimaryKey (TableData.columns table)); simpl.
    + rewrite <- List.app_assoc. reflexivity.
    + rewrite <- !List.app_assoc. reflexivity.
Qed.

(** C8: for a table without columns the array of definitions is empty,
    whatever the relationships, and the statement is the header, an
    empty body between two line feeds inside the parentheses, the table
    options and the closing [;]. *)
Theorem createTable_no_columns
    (dialect : string) (table : TableData.t)
    (relationships : list RelationshipData.t) (allTables : list TableData.t) :
  TableData.columns table = [] ->
  SQLGenerator.columnDefinitions dialect table relationships allTables = [] /\
  SQLGenerator.generateCreateTableSQL dialect table relationships allTables =
    "CREATE TABLE " +:+ SQLGenerator.quoteIdentifier dialect (TableData.name table) +:+
    " (" +:+ JS.LF +:+ "" +:+ JS.LF +:+ ")" +:+
    SQLGenerator.tableOptions dialect table +:+ ";".
Proof.
  intros Hcols.
  assert (Hdefs :
    SQLGenerator.columnDefinitions dialect table relationships allTables = []).
  { unfold SQLGenerator.columnDefinitions. rewrite Hcols. simpl.
    rewrite fold_pushForeignKey. simpl.
    induction (List.filter _ relationships) as [|fk fks IH]; simpl; [reflexivity |].
    rewrite IH, List.app_nil_r.
    apply pushForeignKey_dangling. left. rewrite Hcols. intros col []. }
  split; [exact Hdefs |].
  unfold SQLGenerator.generateCreateTableSQL. rewrite Hdefs. simpl.
  rewrite !append_assoc. reflexivity.
Qed.

Lemma createTable_no_columns_witness :
  SQLGenerator.generateCreateTableSQL "mysql" Sample.blank [Sample.relAB] [Sample.blank] =
  "CREATE TABLE `new_table` (" +:+ JS.LF +:+ JS.LF +:+
  ") ENGINE=InnoDB DEFAULT CHARSET=utf8mb4 COLLATE=utf8mb4_general_ci;".
Proof.
  destruct (createTable_no_columns "mysql" Sample.blank [Sample.relAB] [Sample.blank]
              eq_refl) as [_ ->].
  vm_compute. reflexivity.
Defined.

(** ** The relationship actions of [projectReducer] *)

Lemma withRelationships_same (state : ProjectData.t) :
  ProjectData.withRelationships state (ProjectData.relationships state) = state.
Proof. now destruct state. Qed.

Lemma filter_other_ids (rels : list RelationshipData.t) (rid : string) :
  (forall r, In r rels -> RelationshipData.id r <> rid) ->
  List.filter (fun r => negb (RelationshipData.id r =? rid)) rels = rels.
Proof.
  intros H. apply forallb_filter_id, forallb_forall.
  intros r Hin. apply negb_true_iff, String.eqb_neq. now apply H.
Qed.

Lemma find_other_ids (rels : list RelationshipData.t) (rid : string) :
  (forall r, In r rels -> RelationshipData.id r <> rid) ->
  List.find (fun r => RelationshipData.id r =? rid) rels = None.
Proof.
  intros H. apply find_absent. intros r Hin. apply String.eqb_neq. now apply H.
Qed.

Lemma find_appended (rels : list RelationshipData.t) (rel : RelationshipData.t) :
  (forall r, In r rels -> RelationshipData.id r <> RelationshipData.id rel) ->
  List.find (fun r => RelationshipData.id r =? RelationshipData.id rel) (rels ++ [rel])
  = Some rel.
Proof.
  intros H. induction rels as [|r rels IH]; simpl.
  - now rewrite String.eqb_refl.
  - destruct (String.eqb_spec (RelationshipData.id r) (RelationshipData.id rel)) as [E|_].
    + exfalso. apply (H r); [now left | exact E].
    + apply IH. intros r' Hin. apply H. now right.
Qed.

Lemma filter_appended (rels : list RelationshipData.t) (rel : RelationshipData.t) :
  (forall r, In r rels -> RelationshipData.id r <> RelationshipData.id rel) ->
  List.filter (fun r => negb (RelationshipData.id r =? RelationshipData.id rel))
              (rels ++ [rel]) = rels.
Proof.
  intros H. rewrite List.filter_app, filter_other_ids by exact H.
  simpl. rewrite String.eqb_refl. simpl. apply List.app_nil_r.
Qed.

Lemma findTable_Some (h : store) (tables : list loc) (tid : string)
    (l : loc) (t : TableData.t) :
  findTable h tables tid = Some (l, t) ->
  h !! l = Some t /\ TableData.id t = tid.
Proof.
  induction tables as [|l0 rest IH]; simpl; [discriminate |].
  destruct (h !! l0) as [t0|] eqn:Hl0; [| exact IH].
  destruct (String.eqb_spec (TableData.id t0) tid) as [E | _]; [| exact IH].
  intros [= <- <-]. now split.
Qed.

(** Assigning to a property other than [id] of the table that a lookup
    finds does not change which table the lookup finds. *)
Lemma findTable_insert (h : store) (tables : list loc) (tid : string)
    (l : loc) (t t' : TableData.t) :
  findTable h tables tid = Some (l, t) ->
  TableData.id t' = TableData.id t ->
  findTable (<[l := t']> h) tables tid = Some (l, t').
Proof.
  intros Hfind Hid.
  destruct (findTable_Some _ _ _ _ _ Hfind) as [Hl Htid].
  induction tables as [|l0 rest IH]; simpl in *; [discriminate |].
  destruct (decide (l = l0)) as [<- | Hne].
  - rewrite lookup_insert_eq, Hid, Htid, String.eqb_refl. reflexivity.
  - rewrite lookup_insert_ne by exact Hne.
    destruct (h !! l0) as [t0|]; [| now apply IH].
    destruct (TableData.id t0 =? tid); [| now apply IH].
    now injection Hfind as -> _.
Qed.

(** C10: when no relationship of the state carries the identifier,
    DELETE_RELATIONSHIP returns the state it was given and leaves every
    table object as it was. *)
Theorem delete_unknown_relationship
    (h : store) (state : ProjectData.t) (rid : string) :
  (forall r, In r (ProjectData.relationships state) -> RelationshipData.id r <> rid) ->
  projectReducer h state (DELETE_RELATIONSHIP rid) = (state, h).
Proof.
  intros H. unfold projectReducer.
  rewrite find_other_ids, filter_other_ids by exact H.
  now rewrite withRelationships_same.
Qed.

Lemma delete_unknown_relationship_witness :
  projectReducer Sample.heap
    (ProjectData.withRelationships Sample.project [Sample.relAB])
    (DELETE_RELATIONSHIP "r9")
  = (ProjectData.withRelationships Sample.project [Sample.relAB], Sample.heap).
Proof.
  apply delete_unknown_relationship.
  intros r [<- | []]. vm_compute. discriminate.
Defined.

Lemma Forall2_map_self {A : Type} (R : A -> A -> Prop) (f : A -> A) (l : list A) :
  (forall x, R x (f x)) -> Forall2 R l (map f l).
Proof. intros H. induction l; simpl; constructor; auto. Qed.

Lemma unmark_mark (rel : RelationshipData.t) (c : Column.t) :
  unmarkColumn rel (markColumn rel c) = unmarkColumn rel c.
Proof.
  unfold unmarkColumn, markColumn.
  destruct (Column.id c =? RelationshipData.targetColumn rel) eqn:E.
  - simpl. now rewrite E.
  - now rewrite E.
Qed.




Section RelationshipRoundTrip.

(** The fields of a column other than the three foreign-key fields, and
    the fields of a table other than its columns, are the same. *)
Local Abbreviation other_fields_kept :=
  (fun c c' : Column.t =>
     Column.id c' = Column.id c /\
     Column.name c' = Column.name c /\
     Column.dataType c' = Column.dataType c /\
     Column.length c' = Column.length c /\
     Column.isPrimaryKey c' = Column.isPrimaryKey c /\
     Column.isNotNull c' = Column.isNotNull c /\
     Column.isAutoIncrement c' = Column.isAutoIncrement c /\
     Column.isUnique c' = Column.isUnique c /\
     Column.defaultValue c' = Column.defaultValue c /\
     Column.comment c' = Column.comment c /\
     Column.collation c' = Column.collation c /\
     Column.charset c' = Column.charset c).

Local Abbreviation table_fields_kept :=
  (fun t t' : TableData.t =>
     TableData.id t' = TableData.id t /\
     TableData.name t' = TableData.name t /\
     TableData.position t' = TableData.position t /\
     TableData.engine t' = TableData.engine t /\
     TableData.charset t' = TableData.charset t /\
     TableData.collation t' = TableData.collation t /\
     TableData.comment t' = TableData.comment t /\
     TableData.autoIncrement t' = TableData.autoIncrement t).


End RelationshipRoundTrip.


(** Scenario 3: the relationship from A.a_id to B.b_id marks B's column
    [b_id] and deleting it clears the column again; table A is as
    before. *)
Example relationship_scenario :
  let added := projectReducer Sample.heap Sample.project (ADD_RELATIONSHIP Sample.relAB) in
  let deleted := projectReducer added.2 added.1 (DELETE_RELATIONSHIP "r1") in
  (map (fun c => (Column.id c, Column.isForeignKey c,
                  Column.referencesTable c, Column.referencesColumn c))
     <$> (TableData.columns <$> added.2 !! 2%positive)) =
    Some [("b_pk", None, None, None); ("b_id", Some true, Some "A", Some "a_id")] /\
  (map (fun c => (Column.id c, Column.isForeignKey c,
                  Column.referencesTable c, Column.referencesColumn c))
     <$> (TableData.columns <$> deleted.2 !! 2%positive)) =
    Some [("b_pk", None, None, None); ("b_id", Some false, None, None)] /\
  added.2 !! 1%positive = Some Sample.tableA /\
  deleted.2 !! 1%positive = Some Sample.tableA.
Proof. vm_compute. repeat split. Qed.

(** ** Further properties of the generator *)

Lemma quoted_inj (q a b : string) (c : ascii) :
  q = String c "" -> q +:+ a +:+ q = q +:+ b +:+ q -> a = b.
Proof.
  intros -> H. rewrite !append_cons, !append_nil_l in H.
  injection H as H. now apply append_char_inj in H.
Qed.

(** Two identifiers are quoted to the same text exactly when they are
    equal, except under Oracle, where it is enough that they are equal
    once upper-cased. *)
Theorem quoteIdentifier_injective (dialect a b : string) :
  SQLGenerator.quoteIdentifier dialect a = SQLGenerator.quoteIdentifier dialect b <->
  (if dialect =? "oracle" then JS.toUpperCase a = JS.toUpperCase b else a = b).
Proof.
  destruct (String.eqb_spec dialect "oracle") as [-> | Hne].
  - unfold SQLGenerator.quoteIdentifier; simpl. split.
    + now apply (quoted_inj JS.DQ _ _ (ascii_of_nat 34)).
    + now intros ->.
  - unfold SQLGenerator.quoteIdentifier.
    apply String.eqb_neq in Hne. rewrite Hne.
    destruct ((dialect =? "mysql") || (dialect =? "mariadb")).
    { split; [now apply (quoted_inj "`" _ _ "`"%char) | now intros ->]. }
    destruct ((dialect =? "postgresql") || (dialect =? "sqlite")).
    { split; [now apply (quoted_inj JS.DQ _ _ (ascii_of_nat 34)) | now intros ->]. }
    tauto.
Qed.

Lemma replaceQuotes_inj (a b : string) :
  JS.replaceQuotes a = JS.replaceQuotes b -> a = b.
Proof.
  revert b; induction a as [|c a IH]; intros [|d b]; simpl.
  - reflexivity.
  - destruct (Ascii.eqb d "'"); discriminate.
  - destruct (Ascii.eqb c "'"); discriminate.
  - destruct (Ascii.eqb_spec c "'") as [-> | Hc];
      destruct (Ascii.eqb_spec d "'") as [-> | Hd]; intros H.
    + injection H as H. f_equal. now apply IH.
    + injection H as <- _. now contradiction Hd.
    + injection H as -> _. now contradiction Hc.
    + injection H as -> H. f_equal. now apply IH.
Qed.

Lemma numberToString_not_quote (z : Z) (r : string) :
  JS.numberToString z <> String "'" r.
Proof.
  unfold JS.numberToString.
  destruct (Z.to_int z) as [d | d]; [destruct d |]; discriminate.
Qed.

(** The literal [formatValue] writes for a string is written for that
    string only: no other string and no number, boolean or null value
    gives the same text. *)
Theorem formatValue_string_injective (s : string) (v : Value) :
  SQLGenerator.formatValue (VString s) = SQLGenerator.formatValue v -> v = VString s.
Proof.
  destruct v as [| | z | [|] | s']; simpl; intros H;
    rewrite ?append_cons, ?append_nil_l in H; try discriminate H.
  - symmetry in H. now apply numberToString_not_quote in H.
  - injection H as H. apply append_char_inj, replaceQuotes_inj in H. now subst.
Qed.

Lemma formatValue_string_injective_witness :
  VString "it's" = VString "it's".
Proof.
  apply (formatValue_string_injective "it's" (VString "it's")). reflexivity.
Defined.

Lemma formatDataType_other_type (column : Column.t) :
  ~ In (Column.dataType column)
       ["VARCHAR"; "CHAR"; "VARBINARY"; "BINARY"; "DECIMAL"; "NUMERIC"; "ENUM"; "SET"] ->
  SQLGenerator.formatDataType column = Column.dataType column.
Proof.
  intros Hout. unfold SQLGenerator.formatDataType.
  assert (H4 : JS.includes ["VARCHAR"; "CHAR"; "VARBINARY"; "BINARY"]
                           (Column.dataType column) = false).
  { apply not_true_is_false. rewrite includes_true. intros Hin. apply Hout.
    simpl in *. tauto. }
  assert (Hne : forall t,
             In t ["DECIMAL"; "NUMERIC"; "ENUM"; "SET"] ->
             (Column.dataType column =? t) = false).
  { intros t Hin. apply String.eqb_neq. intros E. apply Hout.
    rewrite E. simpl in *. tauto. }
  rewrite H4, !Hne by (simpl; tauto). simpl.
  now destruct (JS.truthy (Column.length column)).
Qed.

(** The length of a column is written by [formatDataType] only for the
    eight upper-case type names it tests for.  Every type name offered
    for PostgreSQL and for Oracle is outside them, so under these two
    dialects a column of an offered type is always written without its
    length. *)
Theorem formatDataType_offered_types_drop_length
    (dialect : string) (types : list string) (column : Column.t) :
  dialect = "postgresql" \/ dialect = "oracle" ->
  DATA_TYPES dialect = Some types ->
  In (Column.dataType column) types ->
  SQLGenerator.formatDataType column = Column.dataType column.
Proof.
  intros Hd Htypes Hin. apply formatDataType_other_type. intros H8.
  assert (Hall : forallb
            (fun t => negb (JS.includes
               ["VARCHAR"; "CHAR"; "VARBINARY"; "BINARY";
                "DECIMAL"; "NUMERIC"; "ENUM"; "SET"] t)) types = true).
  { destruct Hd as [-> | ->]; vm_compute in Htypes;
      injection Htypes as <-; vm_compute; reflexivity. }
  rewrite forallb_forall in Hall. specialize (Hall _ Hin).
  apply negb_true_iff in Hall.
  apply includes_true in H8. congruence.
Qed.

Lemma formatDataType_offered_types_drop_length_witness :
  SQLGenerator.formatDataType Fixture.email = "varchar".
Proof.
  eapply (formatDataType_offered_types_drop_length "postgresql" _ Fixture.email).
  - now left.
  - reflexivity.
  - vm_compute. tauto.
Defined.

(** For the five upper-case type names that [getDataTypeDisplay] tests
    for, the canvas shows a column's type as the generator writes it. *)
Theorem getDataTypeDisplay_agrees (column : Column.t) :
  In (Column.dataType column) ["VARCHAR"; "CHAR"; "DECIMAL"; "VARBINARY"; "BINARY"] ->
  getDataTypeDisplay column = SQLGenerator.formatDataType column.
Proof.
  intros Hin. unfold getDataTypeDisplay, SQLGenerator.formatDataType.
  simpl in Hin.
  destruct Hin as [E | [E | [E | [E | [E | []]]]]]; rewrite <- E; simpl;
    now destruct (JS.truthy (Column.length column)).
Qed.

Lemma getDataTypeDisplay_agrees_witness :
  getDataTypeDisplay Fixture.price = "DECIMAL(10,2)" /\
  SQLGenerator.formatDataType Fixture.price = "DECIMAL(10,2)".
Proof.
  rewrite (getDataTypeDisplay_agrees Fixture.price) by (simpl; tauto).
  split; reflexivity.
Defined.

(** A type name that is one of those five only after upper-casing, such
    as PostgreSQL's [varchar], is shown on the canvas with the column's
    length and written by the generator without it. *)
Theorem getDataTypeDisplay_shows_dropped_length (column : Column.t) (len : string) :
  JS.truthy (Column.length column) = Some len ->
  In (JS.toUpperCase (Column.dataType column))
     ["VARCHAR"; "CHAR"; "DECIMAL"; "VARBINARY"; "BINARY"] ->
  ~ In (Column.dataType column)
       ["VARCHAR"; "CHAR"; "VARBINARY"; "BINARY"; "DECIMAL"; "NUMERIC"; "ENUM"; "SET"] ->
  getDataTypeDisplay column = Column.dataType column +:+ "(" +:+ len +:+ ")" /\
  SQLGenerator.formatDataType column = Column.dataType column.
Proof.
  intros Hlen Hup Hout. split; [| now apply formatDataType_other_type].
  unfold getDataTypeDisplay. rewrite Hlen.
  apply includes_true in Hup. now rewrite Hup.
Qed.

Lemma getDataTypeDisplay_shows_dropped_length_witness :
  getDataTypeDisplay Fixture.email = "varchar(255)" /\
  SQLGenerator.formatDataType Fixture.email = "varchar".
Proof.
  apply (getDataTypeDisplay_shows_dropped_length Fixture.email "255").
  - reflexivity.
  - vm_compute. tauto.
  - vm_compute. intros H. repeat (destruct H as [H | H]; [discriminate H |]). exact H.
Defined.

Lemma formatDefaultValue_blank (v : string) :
  JS.trim v = "" -> SQLGenerator.formatDefaultValue v = v.
Proof.
  intros Hblank. unfold SQLGenerator.formatDefaultValue.
  destruct (JS.includes _ _); [reflexivity |].
  destruct (v =? "NULL"); [reflexivity |].
  unfold JS.isNaN_Number. now rewrite Hblank.
Qed.

(** A default value made of white space only is left out by CREATE
    TABLE, which tests the trimmed value, but written by ALTER TABLE ADD
    COLUMN, which tests the value itself; it is then written as it is,
    without quotes. *)
Theorem blank_default_create_and_alter
    (dialect : string) (table : TableData.t) (details : AlterDetails.t) (v : string) :
  v <> "" ->
  JS.trim v = "" ->
  Column.defaultValue (AlterDetails.column details) = Some v ->
  let column := AlterDetails.column details in
  SQLGenerator.columnDefinition dialect column =
    SQLGenerator.columnDefinition dialect
      (Column.mk (Column.id column) (Column.name column) (Column.dataType column)
         (Column.length column) (Column.isPrimaryKey column) (Column.isNotNull column)
         (Column.isAutoIncrement column) (Column.isUnique column) None
         (Column.isForeignKey column) (Column.referencesTable column)
         (Column.referencesColumn column) (Column.comment column)
         (Column.collation column) (Column.charset column)) /\
  SQLGenerator.generateAlterTableSQL dialect table "ADD_COLUMN" details =
    "ALTER TABLE " +:+ SQLGenerator.quoteIdentifier dialect (TableData.name table) +:+
    " ADD COLUMN " +:+ SQLGenerator.quoteIdentifier dialect (Column.name column) +:+
    " " +:+ SQLGenerator.formatDataType column +:+
    (if Column.isNotNull column then " NOT NULL" else "") +:+
    " DEFAULT " +:+ v +:+ ";".
Proof.
  intros Hne Hblank Hdef column. subst column.
  destruct details as [column dcolumnName doldName dnewName dindexName dcolumns].
  cbn [AlterDetails.column] in *.
  destruct column as
    [cid cname cty clen cpk cnn cai cuq cdef cfk crt crc ccm cco ccs].
  simpl in Hdef. subst cdef. split.
  - unfold SQLGenerator.columnDefinition, SQLGenerator.formatDataType. simpl.
    destruct v as [|c r]; [now contradiction Hne |]. simpl.
    now rewrite Hblank.
  - unfold SQLGenerator.generateAlterTableSQL.
    destruct v as [|c r]; [now contradiction Hne |].
    cbn -[SQLGenerator.formatDefaultValue SQLGenerator.formatDataType
          SQLGenerator.quoteIdentifier].
    rewrite (formatDefaultValue_blank _ Hblank).
    destruct cnn; rewrite ?append_assoc, ?append_nil_l; reflexivity.
Qed.

Lemma blank_default_create_and_alter_witness :
  SQLGenerator.generateAlterTableSQL "mysql" Sample.tableA "ADD_COLUMN"
    (AlterDetails.mk
       (Column.mk "c9" "note" "TEXT" None false false false false (Some " ")
                  None None None None None None)
       "" "" "" "" []) =
  "ALTER TABLE `table_a` ADD COLUMN `note` TEXT DEFAULT  ;".
Proof.
  refine (proj2 (blank_default_create_and_alter "mysql" Sample.tableA
            (AlterDetails.mk
               (Column.mk "c9" "note" "TEXT" None false false false false (Some " ")
                          None None None None None None)
               "" "" "" "" []) " " _ _ _)).
  - discriminate.
  - reflexivity.
  - reflexivity.
Defined.

(** An operation name other than the six that [generateAlterTableSQL]
    knows gives the bare statement [ALTER TABLE <name>;], whatever the
    details. *)
Theorem alterTable_unknown_operation
    (dialect : string) (table : TableData.t) (operation : string)
    (details : AlterDetails.t) :
  ~ In operation ["ADD_COLUMN"; "DROP_COLUMN"; "MODIFY_COLUMN"; "RENAME_COLUMN";
                  "ADD_INDEX"; "DROP_INDEX"] ->
  SQLGenerator.generateAlterTableSQL dialect table operation details =
  "ALTER TABLE " +:+ SQLGenerator.quoteIdentifier dialect (TableData.name table) +:+ ";".
Proof.
  intros Hout. unfold SQLGenerator.generateAlterTableSQL.
  assert (Hne : forall t,
             In t ["ADD_COLUMN"; "DROP_COLUMN"; "MODIFY_COLUMN"; "RENAME_COLUMN";
                   "ADD_INDEX"; "DROP_INDEX"] -> (operation =? t) = false).
  { intros t Hin. apply String.eqb_neq. intros ->. now apply Hout. }
  rewrite !Hne by (simpl; tauto). now rewrite append_assoc.
Qed.

Lemma alterTable_unknown_operation_witness :
  SQLGenerator.generateAlterTableSQL "postgresql" Sample.tableA "add_column"
    (AlterDetails.mk Fixture.email "" "" "" "" []) =
  "ALTER TABLE " +:+ SQLGenerator.quoteIdentifier "postgresql" "table_a" +:+ ";".
Proof.
  apply (alterTable_unknown_operation "postgresql" Sample.tableA "add_column").
  simpl. intros H. repeat (destruct H as [H | H]; [discriminate H |]). exact H.
Defined.

Lemma prefix_nil (s : string) : String.prefix "" s = true.
Proof. now destruct s. Qed.

Lemma prefix_cons (a : ascii) (p s : string) :
  String.prefix (String a p) (String a s) = String.prefix p s.
Proof. simpl. destruct (ascii_dec a a) as [_ | Hne]; [reflexivity | now contradiction Hne]. Qed.

Lemma prefix_cons_ne (a b : ascii) (p s : string) :
  a <> b -> String.prefix (String a p) (String b s) = false.
Proof. intros Hne. simpl. destruct (ascii_dec a b) as [E | _]; [now contradiction Hne | reflexivity]. Qed.

(** [generateCreateIndexSQL] has no case for the index type PRIMARY: for
    such an index the statement has no CREATE header and starts with the
    parenthesised column list; for the four other types it starts with
    CREATE. *)
Theorem createIndex_primary_has_no_header
    (dialect : string) (index : IndexData.t) (tableName : string) :
  String.prefix "CREATE " (SQLGenerator.generateCreateIndexSQL dialect index tableName) =
    match IndexData.type index with PRIMARY => false | _ => true end /\
  String.prefix " (" (SQLGenerator.generateCreateIndexSQL dialect index tableName) =
    match IndexData.type index with PRIMARY => true | _ => false end.
Proof.
  unfold SQLGenerator.generateCreateIndexSQL.
  destruct (IndexData.type index);
    destruct (IndexData.method index); destruct (dialect =? "mysql");
    rewrite ?append_assoc, ?append_nil_l, ?append_cons;
    split;
    repeat first [ rewrite prefix_cons
                 | rewrite prefix_nil
                 | rewrite prefix_cons_ne by discriminate ];
    reflexivity.
Qed.

(** In [generateSelectSQL] a limit of 0, an empty WHERE fragment and an
    empty ORDER BY fragment are treated as absent, and an absent column
    list selects [*]. *)
Theorem select_falsy_arguments
    (dialect tableName : string) (columns : option (list string))
    (whereClause orderBy : option string) (limit : option Z) :
  SQLGenerator.generateSelectSQL dialect tableName columns whereClause orderBy (Some 0%Z) =
  SQLGenerator.generateSelectSQL dialect tableName columns whereClause orderBy None /\
  SQLGenerator.generateSelectSQL dialect tableName columns (Some "") orderBy limit =
  SQLGenerator.generateSelectSQL dialect tableName columns None orderBy limit /\
  SQLGenerator.generateSelectSQL dialect tableName columns whereClause (Some "") limit =
  SQLGenerator.generateSelectSQL dialect tableName columns whereClause None limit /\
  SQLGenerator.generateSelectSQL dialect tableName None None None None =
  "SELECT * FROM " +:+ SQLGenerator.quoteIdentifier dialect tableName +:+ ";".
Proof.
  unfold SQLGenerator.generateSelectSQL. simpl.
  repeat split; reflexivity.
Qed.

Lemma columnDefinitions_lines
    (dialect : string) (table : TableData.t)
    (relationships : list RelationshipData.t) (allTables : list TableData.t) :
  SQLGenerator.columnDefinitions dialect table relationships allTables =
    map (SQLGenerator.columnDefinition dialect) (TableData.columns table) ++
    (match List.filter Column.isPrimaryKey (TableData.columns table) with
     | [] => []
     | _ :: _ => [spec_primaryKeyConstraint dialect (TableData.columns table)]
     end) ++
    map (fun col =>
           "  UNIQUE KEY " +:+
           SQLGenerator.quoteIdentifier dialect ("uk_" +:+ Column.name col) +:+
           " (" +:+ SQLGenerator.quoteIdentifier dialect (Column.name col) +:+ ")")
        (List.filter (fun col => Column.isUnique col && negb (Column.isPrimaryKey col))
                     (TableData.columns table)) ++
    flat_map (SQLGenerator.pushForeignKey dialect table allTables [])
             (List.filter
                (fun rel => RelationshipData.sourceTable rel =? TableData.id table)
                relationships).
Proof.
  unfold SQLGenerator.columnDefinitions.
  rewrite fold_pushForeignKey, fold_pushUniqueKey.
  assert (Huk : forall cols,
             flat_map (SQLGenerator.pushUniqueKey dialect []) cols =
             map (fun col =>
                    "  UNIQUE KEY " +:+
                    SQLGenerator.quoteIdentifier dialect ("uk_" +:+ Column.name col) +:+
                    " (" +:+ SQLGenerator.quoteIdentifier dialect (Column.name col) +:+
                    ")") cols).
  { induction cols as [|col cols IH]; simpl; [reflexivity | now rewrite IH]. }
  rewrite Huk. unfold spec_primaryKeyConstraint.
  destruct (List.filter Column.isPrimaryKey (TableData.columns table)); simpl;
    rewrite <- ?List.app_assoc; reflexivity.
Qed.

(** The constraint lines of a table, in full: after the column
    definitions and the PRIMARY KEY line come one UNIQUE KEY line, named
    [uk_<column>], for each column flagged unique and not primary key,
    in column order, and then the foreign keys of the relationships
    whose source is this table, in relationship order. *)
Theorem createTable_constraint_lines
    (dialect : string) (table : TableData.t)
    (relationships : list RelationshipData.t) (allTables : list TableData.t) :
  SQLGenerator.columnDefinitions dialect table relationships allTables =
    map (SQLGenerator.columnDefinition dialect) (TableData.columns table) ++
    (match List.filter Column.isPrimaryKey (TableData.columns table) with
     | [] => []
     | _ :: _ => [spec_primaryKeyConstraint dialect (TableData.columns table)]
     end) ++
    map (fun col =>
           "  UNIQUE KEY " +:+
           SQLGenerator.quoteIdentifier dialect ("uk_" +:+ Column.name col) +:+
           " (" +:+ SQLGenerator.quoteIdentifier dialect (Column.name col) +:+ ")")
        (List.filter (fun col => Column.isUnique col && negb (Column.isPrimaryKey col))
                     (TableData.columns table)) ++
    flat_map (SQLGenerator.pushForeignKey dialect table allTables [])
             (List.filter
                (fun rel => RelationshipData.sourceTable rel =? TableData.id table)
                relationships).
Proof. apply columnDefinitions_lines. Qed.

(** A relationship of the table whose source column, target table and
    target column are all found adds exactly one line, after the lines
    of the relationships before it: the FOREIGN KEY constraint on the
    source column that references the target table and column. *)
Theorem createTable_resolved_foreign_key
    (dialect : string) (table : TableData.t) (allTables : list TableData.t)
    (relationships : list RelationshipData.t) (fk : RelationshipData.t)
    (sourceCol targetCol : Column.t) (targetTable : TableData.t) :
  RelationshipData.sourceTable fk = TableData.id table ->
  List.find (fun col => Column.id col =? RelationshipData.sourceColumn fk)
            (TableData.columns table) = Some sourceCol ->
  List.find (fun t => TableData.id t =? RelationshipData.targetTable fk) allTables
    = Some targetTable ->
  List.find (fun c => Column.id c =? RelationshipData.targetColumn fk)
            (TableData.columns targetTable) = Some targetCol ->
  SQLGenerator.columnDefinitions dialect table (relationships ++ [fk]) allTables =
  SQLGenerator.columnDefinitions dialect table relationships allTables ++
  ["  CONSTRAINT " +:+
   SQLGenerator.quoteIdentifier dialect
     ("fk_" +:+ TableData.name table +:+ "_" +:+ Column.name sourceCol) +:+
   " FOREIGN KEY (" +:+ SQLGenerator.quoteIdentifier dialect (Column.name sourceCol) +:+
   ") REFERENCES " +:+ SQLGenerator.quoteIdentifier dialect (TableData.name targetTable) +:+
   "(" +:+ SQLGenerator.quoteIdentifier dialect (Column.name targetCol) +:+
   ") ON UPDATE " +:+ referentialActionText (RelationshipData.onUpdate fk) +:+
   " ON DELETE " +:+ referentialActionText (RelationshipData.onDelete fk)].
Proof.
  intros Hsrc Hs Ht Hc.
  unfold SQLGenerator.columnDefinitions.
  rewrite List.filter_app. simpl List.filter.
  rewrite Hsrc, String.eqb_refl.
  rewrite fold_left_app. simpl fold_left.
  unfold SQLGenerator.pushForeignKey at 1. now rewrite Hs, Ht, Hc.
Qed.

Lemma createTable_resolved_foreign_key_witness :
  SQLGenerator.columnDefinitions "mysql" Sample.tableA ([] ++ [Sample.relAB])
    [Sample.tableA; Sample.tableB] =
  ["  `a_id` INT";
   "  PRIMARY KEY (`a_id`)";
   "  CONSTRAINT `fk_table_a_a_id` FOREIGN KEY (`a_id`) REFERENCES `table_b`(`b_id`) ON UPDATE CASCADE ON DELETE RESTRICT"].
Proof.
  rewrite (createTable_resolved_foreign_key "mysql" Sample.tableA
             [Sample.tableA; Sample.tableB] [] Sample.relAB
             (Sample.column "a_id" "a_id" "INT" true)
             (Sample.column "b_id" "b_id" "INT" false)
             Sample.tableB eq_refl eq_refl eq_refl eq_refl).
  reflexivity.
Defined.

(** [generateFullSQL] writes a relationship only in the statement of its
    source table: relationships whose source table is none of the given
    tables can be left out without changing the text, and without tables
    the text is empty. *)
Theorem generateFullSQL_foreign_sources
    (dialect : string) (tables : list TableData.t)
    (relationships : list RelationshipData.t) :
  SQLGenerator.generateFullSQL dialect tables relationships =
  SQLGenerator.generateFullSQL dialect tables
    (List.filter
       (fun rel =>
          existsb (fun t => TableData.id t =? RelationshipData.sourceTable rel) tables)
       relationships) /\
  SQLGenerator.generateFullSQL dialect [] relationships = "".
Proof.
  split; [| reflexivity].
  unfold SQLGenerator.generateFullSQL. f_equal.
  apply map_ext_in. intros table Hin.
  assert (Hf :
    List.filter (fun rel => RelationshipData.sourceTable rel =? TableData.id table)
      (List.filter
         (fun rel =>
            existsb (fun t => TableData.id t =? RelationshipData.sourceTable rel) tables)
         relationships) =
    List.filter (fun rel => RelationshipData.sourceTable rel =? TableData.id table)
      relationships).
  { induction relationships as [|rel rels IH]; simpl; [reflexivity |].
    destruct (String.eqb_spec (RelationshipData.sourceTable rel) (TableData.id table))
      as [E | Hne].
    - assert (Hex : existsb
                      (fun t => TableData.id t =? RelationshipData.sourceTable rel)
                      tables = true).
      { apply existsb_exists. exists table. split; [exact Hin |].
        rewrite E. apply String.eqb_refl. }
      rewrite Hex. simpl. apply String.eqb_eq in E. rewrite E. now rewrite IH.
    - destruct (existsb _ tables); simpl; [| exact IH].
      apply String.eqb_neq in Hne. rewrite Hne. exact IH. }
  unfold SQLGenerator.generateCreateTableSQL, SQLGenerator.columnDefinitions.
  now rewrite Hf.
Qed.

(** ** The foreign-key fields of a column and the generated text *)

Section ForeignKeyFields.

Variable dialect : string.

(** Columns that differ at most in [isForeignKey], [referencesTable]
    and [referencesColumn]; tables that differ at most in these fields
    of their columns. *)
Local Abbreviation same_column :=
  (fun c c' : Column.t =>
     setForeignKey c None None None = setForeignKey c' None None None).

Local Abbreviation same_table :=
  (fun t t' : TableData.t =>
     setColumns t [] = setColumns t' [] /\
     Forall2 same_column (TableData.columns t) (TableData.columns t')).

Lemma same_column_fields (c c' : Column.t) :
  same_column c c' ->
  Column.id c = Column.id c' /\ Column.name c = Column.name c' /\
  Column.isPrimaryKey c = Column.isPrimaryKey c' /\
  Column.isUnique c = Column.isUnique c' /\
  SQLGenerator.columnDefinition dialect c = SQLGenerator.columnDefinition dialect c'.
Proof.
  destruct c, c'. unfold setForeignKey; simpl. intros H.
  injection H as -> -> -> -> -> -> -> -> -> -> -> ->. repeat split; reflexivity.
Qed.

Lemma same_table_fields (t t' : TableData.t) :
  setColumns t [] = setColumns t' [] ->
  TableData.id t = TableData.id t' /\ TableData.name t = TableData.name t' /\
  SQLGenerator.tableOptions dialect t = SQLGenerator.tableOptions dialect t'.
Proof.
  destruct t, t'. unfold setColumns; simpl. intros H.
  injection H as -> -> -> -> -> -> -> ->. repeat split; reflexivity.
Qed.

Lemma same_columns_map {B : Type} (g : Column.t -> B) (cols cols' : list Column.t) :
  (forall c c', same_column c c' -> g c = g c') ->
  Forall2 same_column cols cols' -> map g cols = map g cols'.
Proof.
  intros Hg H. induction H as [|c c' cols cols' Hc _ IH]; simpl; [reflexivity |].
  now rewrite (Hg _ _ Hc), IH.
Qed.

Lemma same_columns_filter (p : Column.t -> bool) (cols cols' : list Column.t) :
  (forall c c', same_column c c' -> p c = p c') ->
  Forall2 same_column cols cols' ->
  Forall2 same_column (List.filter p cols) (List.filter p cols').
Proof.
  intros Hp H. induction H as [|c c' cols cols' Hc _ IH]; simpl; [constructor |].
  rewrite <- (Hp _ _ Hc). destruct (p c); [constructor |]; assumption.
Qed.

Lemma same_columns_find (x : string) (cols cols' : list Column.t) :
  Forall2 same_column cols cols' ->
  option_Forall2 same_column
    (List.find (fun c => Column.id c =? x) cols)
    (List.find (fun c => Column.id c =? x) cols').
Proof.
  intros H. induction H as [|c c' cols cols' Hc _ IH]; simpl; [constructor |].
  destruct (same_column_fields _ _ Hc) as (<- & _).
  destruct (Column.id c =? x); [now constructor | exact IH].
Qed.

Lemma same_tables_find (x : string) (ts ts' : list TableData.t) :
  Forall2 same_table ts ts' ->
  option_Forall2 same_table
    (List.find (fun t => TableData.id t =? x) ts)
    (List.find (fun t => TableData.id t =? x) ts').
Proof.
  intros H. induction H as [|t t' ts ts' Ht _ IH]; simpl; [constructor |].
  destruct (same_table_fields _ _ (proj1 Ht)) as (<- & _).
  destruct (TableData.id t =? x); [now constructor | exact IH].
Qed.

Lemma pushForeignKey_same (t t' : TableData.t) (all all' : list TableData.t)
    (fk : RelationshipData.t) :
  same_table t t' -> Forall2 same_table all all' ->
  SQLGenerator.pushForeignKey dialect t all [] fk =
  SQLGenerator.pushForeignKey dialect t' all' [] fk.
Proof.
  intros [Ht Hcols] Hall. unfold SQLGenerator.pushForeignKey.
  destruct (same_table_fields _ _ Ht) as (_ & <- & _).
  destruct (same_columns_find (RelationshipData.sourceColumn fk) _ _ Hcols)
    as [sc sc' Hsc |]; [| reflexivity].
  destruct (same_tables_find (RelationshipData.targetTable fk) _ _ Hall)
    as [tt tt' [Htt Httcols] |]; [| reflexivity].
  destruct (same_columns_find (RelationshipData.targetColumn fk) _ _ Httcols)
    as [tc tc' Htc |]; [| reflexivity].
  destruct (same_column_fields _ _ Hsc) as (_ & <- & _).
  destruct (same_column_fields _ _ Htc) as (_ & <- & _).
  destruct (same_table_fields _ _ Htt) as (_ & <- & _).
  reflexivity.
Qed.

Lemma generateCreateTableSQL_same (t t' : TableData.t) (all all' : list TableData.t)
    (relationships : list RelationshipData.t) :
  same_table t t' -> Forall2 same_table all all' ->
  SQLGenerator.generateCreateTableSQL dialect t relationships all =
  SQLGenerator.generateCreateTableSQL dialect t' relationships all'.
Proof.
  intros Ht Hall. unfold SQLGenerator.generateCreateTableSQL.
  rewrite !columnDefinitions_lines. unfold spec_primaryKeyConstraint.
  destruct Ht as [Ht Hcols].
  destruct (same_table_fields _ _ Ht) as (Hid & Hname & Hopts).
  rewrite Hid, Hname, Hopts.
  rewrite (same_columns_map (SQLGenerator.columnDefinition dialect) _ _
             (fun c c' H => proj2 (proj2 (proj2 (proj2 (same_column_fields c c' H)))))
             Hcols).
  assert (Hpk := same_columns_filter Column.isPrimaryKey _ _
             (fun c c' H => proj1 (proj2 (proj2 (same_column_fields c c' H)))) Hcols).
  assert (Huk := same_columns_filter
             (fun col => Column.isUnique col && negb (Column.isPrimaryKey col)) _ _
             (fun c c' H =>
                match same_column_fields c c' H with
                | conj _ (conj _ (conj Hp (conj Hu _))) =>
                    f_equal2 andb Hu (f_equal negb Hp)
                end) Hcols).
  rewrite (same_columns_map
             (fun col => SQLGenerator.quoteIdentifier dialect (Column.name col)) _ _
             (fun c c' H =>
                f_equal (SQLGenerator.quoteIdentifier dialect)
                        (proj1 (proj2 (same_column_fields c c' H)))) Hpk).
  rewrite (same_columns_map
             (fun col =>
                "  UNIQUE KEY " +:+
                SQLGenerator.quoteIdentifier dialect ("uk_" +:+ Column.name col) +:+
                " (" +:+ SQLGenerator.quoteIdentifier dialect (Column.name col) +:+ ")")
             _ _
             (fun c c' H =>
                f_equal
                  (fun n =>
                     "  UNIQUE KEY " +:+
                     SQLGenerator.quoteIdentifier dialect ("uk_" +:+ n) +:+
                     " (" +:+ SQLGenerator.quoteIdentifier dialect n +:+ ")")
                  (proj1 (proj2 (same_column_fields c c' H)))) Huk).
  assert (Hlen : match List.filter Column.isPrimaryKey (TableData.columns t) with
                 | [] => true | _ => false end =
                 match List.filter Column.isPrimaryKey (TableData.columns t') with
                 | [] => true | _ => false end).
  { now destruct Hpk. }
  assert (Hfk : forall rels,
             flat_map (SQLGenerator.pushForeignKey dialect t all []) rels =
             flat_map (SQLGenerator.pushForeignKey dialect t' all' []) rels).
  { induction rels as [|fk rels IH]; simpl; [reflexivity |].
    now rewrite IH, (pushForeignKey_same t t' all all' fk (conj Ht Hcols) Hall). }
  rewrite Hfk.
  destruct (List.filter Column.isPrimaryKey (TableData.columns t));
    destruct (List.filter Column.isPrimaryKey (TableData.columns t'));
    try discriminate Hlen; reflexivity.
Qed.

Lemma generateFullSQL_same (ts ts' : list TableData.t)
    (relationships : list RelationshipData.t) :
  Forall2 same_table ts ts' ->
  SQLGenerator.generateFullSQL dialect ts relationships =
  SQLGenerator.generateFullSQL dialect ts' relationships.
Proof.
  intros Hall. unfold SQLGenerator.generateFullSQL. f_equal.
  assert (H : forall us us', Forall2 same_table us us' ->
             map (fun table =>
                    SQLGenerator.generateCreateTableSQL dialect table relationships ts) us =
             map (fun table =>
                    SQLGenerator.generateCreateTableSQL dialect table relationships ts') us').
  { intros us us' Hus. induction Hus as [|u u' us us' Hu _ IH]; simpl; [reflexivity |].
    now rewrite IH, (generateCreateTableSQL_same u u' ts ts' relationships Hu Hall). }
  now apply H.
Qed.

Lemma same_table_refl (t : TableData.t) : same_table t t.
Proof.
  split; [reflexivity |]. induction (TableData.columns t); constructor; auto.
Qed.

Lemma readTables_insert (h : store) (state : ProjectData.t) (l : loc)
    (t t' : TableData.t) :
  h !! l = Some t -> same_table t t' ->
  Forall2 same_table (readTables h state)
          (readTables (<[l := t']> h) state).
Proof.
  intros Hl Htt. unfold readTables.
  induction (ProjectData.tables state) as [|l0 ls IH]; simpl; [constructor |].
  destruct (decide (l = l0)) as [<- | Hne].
  - rewrite lookup_insert_eq, Hl. simpl. now constructor.
  - rewrite lookup_insert_ne by exact Hne.
    destruct (h !! l0); simpl; [constructor; [apply same_table_refl | exact IH] | exact IH].
Qed.

Lemma readTables_refl (h : store) (state : ProjectData.t) :
  Forall2 same_table (readTables h state) (readTables h state).
Proof.
  induction (readTables h state); constructor; [apply same_table_refl | assumption].
Qed.

End ForeignKeyFields.

(** The text [generateCreateTableSQL] writes does not depend on the
    foreign-key fields of the columns: two tables that differ at most in
    [isForeignKey], [referencesTable] and [referencesColumn] of their
    columns, among tables that differ at most so, give the same
    statement.  Foreign keys are written from the relationships only. *)
Theorem createTable_ignores_foreign_key_fields
    (dialect : string) (t t' : TableData.t) (all all' : list TableData.t)
    (relationships : list RelationshipData.t) :
  setColumns t [] = setColumns t' [] /\
  Forall2 (fun c c' => setForeignKey c None None None = setForeignKey c' None None None)
          (TableData.columns t) (TableData.columns t') ->
  Forall2
    (fun u u' =>
       setColumns u [] = setColumns u' [] /\
       Forall2 (fun c c' => setForeignKey c None None None = setForeignKey c' None None None)
               (TableData.columns u) (TableData.columns u'))
    all all' ->
  SQLGenerator.generateCreateTableSQL dialect t relationships all =
  SQLGenerator.generateCreateTableSQL dialect t' relationships all'.
Proof. apply generateCreateTableSQL_same. Qed.

Lemma createTable_ignores_foreign_key_fields_witness :
  SQLGenerator.generateCreateTableSQL "mysql" Sample.tableB [Sample.relAB]
    [Sample.tableA; Sample.tableB] =
  SQLGenerator.generateCreateTableSQL "mysql"
    (setColumns Sample.tableB
       (map (markColumn Sample.relAB) (TableData.columns Sample.tableB)))
    [Sample.relAB]
    [Sample.tableA;
     setColumns Sample.tableB
       (map (markColumn Sample.relAB) (TableData.columns Sample.tableB))].
Proof.
  apply createTable_ignores_foreign_key_fields.
  - split; [reflexivity |]. repeat constructor.
  - repeat constructor.
Defined.

Lemma markColumn_same (rel : RelationshipData.t) (c : Column.t) :
  setForeignKey c None None None = setForeignKey (markColumn rel c) None None None.
Proof. unfold markColumn. now destruct (Column.id c =? _). Qed.

Lemma unmarkColumn_same (rel : RelationshipData.t) (c : Column.t) :
  setForeignKey c None None None = setForeignKey (unmarkColumn rel c) None None None.
Proof. unfold unmarkColumn. now destruct (Column.id c =? _). Qed.

(** ADD_RELATIONSHIP and DELETE_RELATIONSHIP rewrite columns of a table
    object, but only their foreign-key fields: for every dialect and
    every list of relationships, the SQL generated from the tables of
    the state after the action is the SQL generated from its tables
    before. *)
Theorem relationship_actions_keep_table_sql
    (h : store) (state : ProjectData.t) (rel : RelationshipData.t) (rid : string)
    (dialect : string) (relationships : list RelationshipData.t) :
  let added := projectReducer h state (ADD_RELATIONSHIP rel) in
  let deleted := projectReducer h state (DELETE_RELATIONSHIP rid) in
  SQLGenerator.generateFullSQL dialect (readTables added.2 added.1) relationships =
  SQLGenerator.generateFullSQL dialect (readTables h state) relationships /\
  SQLGenerator.generateFullSQL dialect (readTables deleted.2 deleted.1) relationships =
  SQLGenerator.generateFullSQL dialect (readTables h state) relationships.
Proof.
  cbv zeta. split; symmetry; apply generateFullSQL_same; unfold projectReducer.
  - simpl ProjectData.tables.
    destruct (findTable h (ProjectData.tables state) (RelationshipData.targetTable rel))
      as [[l t]|] eqn:Hfind; simpl.
    + apply (readTables_insert h state l t).
      * now apply findTable_Some in Hfind.
      * split; [reflexivity |]. apply Forall2_map_self. apply markColumn_same.
    + exact (readTables_refl h state).
  - destruct (List.find _ (ProjectData.relationships state)) as [r|]; simpl;
      [| exact (readTables_refl h state)].
    destruct (findTable h (ProjectData.tables state) (RelationshipData.targetTable r))
      as [[l t]|] eqn:Hfind; simpl.
    + apply (readTables_insert h state l t).
      * now apply findTable_Some in Hfind.
      * split; [reflexivity |]. apply Forall2_map_self. apply unmarkColumn_same.
    + exact (readTables_refl h state).
Qed.

(** ** The column editor *)

Lemma findIndex_Some {A : Type} (f : A -> bool) (l : list A) (i : nat) :
  JS.findIndex f l = Some i <->
  exists x, l !! i = Some x /\ f x = true /\
            forall j y, (j < i)%nat -> l !! j = Some y -> f y = false.
Proof.
  revert i; induction l as [|a l IH]; intros i; simpl.
  - split; [discriminate | now intros (x & H & _)].
  - destruct (f a) eqn:Ha.
    + split.
      * intros [= <-]. exists a.
        split; [reflexivity | split; [exact Ha | intros j y Hj; lia]].
      * intros (x & Hx & Hfx & Hbefore). destruct i as [|i]; [reflexivity |].
        specialize (Hbefore 0%nat a ltac:(lia) eq_refl). congruence.
    + split.
      * destruct (JS.findIndex f l) as [k|] eqn:Hk; simpl; [| discriminate].
        intros [= <-]. destruct (proj1 (IH k) eq_refl) as (x & Hx & Hfx & Hb).
        exists x. split; [exact Hx | split; [exact Hfx |]].
        intros [|j] y Hj Hy.
        -- simpl in Hy. congruence.
        -- apply (Hb j); [lia | exact Hy].
      * intros (x & Hx & Hfx & Hb). destruct i as [|i].
        -- simpl in Hx. congruence.
        -- assert (Hi : JS.findIndex f l = Some i).
           { apply IH. exists x. split; [exact Hx | split; [exact Hfx |]].
             intros j y Hj Hy. apply (Hb (S j)); [lia | exact Hy]. }
           now rewrite Hi.
Qed.

Lemma findIndex_None {A : Type} (f : A -> bool) (l : list A) :
  (forall x, In x l -> f x = false) -> JS.findIndex f l = None.
Proof.
  induction l as [|a l IH]; intros H; simpl; [reflexivity |].
  rewrite (H a (or_introl eq_refl)), IH; [reflexivity |].
  intros x Hx. apply H. now right.
Qed.

(** Writing two neighbouring cells of an array. *)
Lemma insert_neighbours {A : Type} (l : list A) (i : nat) (x y : A) :
  (S i < List.length l)%nat ->
  <[i := x]> (<[S i := y]> l) = take i l ++ x :: y :: drop (S (S i)) l /\
  <[S i := y]> (<[i := x]> l) = take i l ++ x :: y :: drop (S (S i)) l.
Proof.
  revert l; induction i as [|i IH]; intros [|a [|b l]] Hlen; simpl in Hlen; try lia.
  - split; reflexivity.
  - destruct (IH (b :: l)) as [H1 H2]; [simpl; lia |].
    split; simpl; f_equal; [exact H1 | exact H2].
Qed.

Lemma split_neighbours {A : Type} (l : list A) (i : nat) (a b : A) :
  l !! i = Some a -> l !! S i = Some b ->
  l = take i l ++ a :: b :: drop (S (S i)) l.
Proof.
  revert l; induction i as [|i IH]; intros [|x [|y l]] Ha Hb; simpl in *;
    try discriminate.
  - now injection Ha as ->; injection Hb as ->.
  - f_equal. now apply (IH (y :: l)).
Qed.

(** What [moveColumn] returns when it moves: the column found at
    position [i+1] moved up, or the column found at [i] moved down,
    exchanges the cells [i] and [i+1]. *)
Lemma moveColumn_up (columns : list Column.t) (id : string) (i : nat) (a b : Column.t) :
  JS.findIndex (fun col => Column.id col =? id) columns = Some (S i) ->
  columns !! i = Some b -> columns !! S i = Some a ->
  moveColumn columns id MoveUp = take i columns ++ a :: b :: drop (S (S i)) columns.
Proof.
  intros Hfind Hb Ha. unfold moveColumn. rewrite Hfind.
  assert (Hlen : (S i < List.length columns)%nat) by (eapply lookup_lt_Some; eauto).
  replace (Z.of_nat (S i) - 1)%Z with (Z.of_nat i) by lia.
  destruct (Z.ltb_spec (Z.of_nat i) 0); [lia |].
  destruct (Z.leb_spec (Z.of_nat (List.length columns)) (Z.of_nat i)); [lia |].
  simpl. rewrite Nat2Z.id, Ha, Hb.
  now apply insert_neighbours.
Qed.

Lemma moveColumn_down (columns : list Column.t) (id : string) (i : nat) (a b : Column.t) :
  JS.findIndex (fun col => Column.id col =? id) columns = Some i ->
  columns !! i = Some a -> columns !! S i = Some b ->
  moveColumn columns id MoveDown = take i columns ++ b :: a :: drop (S (S i)) columns.
Proof.
  intros Hfind Ha Hb. unfold moveColumn. rewrite Hfind.
  assert (Hlen : (S i < List.length columns)%nat) by (eapply lookup_lt_Some; eauto).
  replace (Z.of_nat i + 1)%Z with (Z.of_nat (S i)) by lia.
  destruct (Z.ltb_spec (Z.of_nat (S i)) 0); [lia |].
  destruct (Z.leb_spec (Z.of_nat (List.length columns)) (Z.of_nat (S i))); [lia |].
  simpl orb. cbv iota. rewrite Nat2Z.id, Ha, Hb.
  now apply insert_neighbours.
Qed.

Lemma take_before {A : Type} (pre r : list A) : take (List.length pre) (pre ++ r) = pre.
Proof. induction pre as [|x pre IH]; simpl; [now destruct r | now rewrite IH]. Qed.

Lemma drop_two_after {A : Type} (pre post : list A) (x y : A) :
  drop (S (S (List.length pre))) (pre ++ x :: y :: post) = post.
Proof. induction pre as [|z pre IH]; simpl; [reflexivity | exact IH]. Qed.

Lemma lookup_after {A : Type} (pre post : list A) (x y : A) :
  (pre ++ x :: y :: post) !! List.length pre = Some x /\
  (pre ++ x :: y :: post) !! S (List.length pre) = Some y.
Proof. induction pre as [|z pre IH]; simpl; [split; reflexivity | exact IH]. Qed.

Lemma findIndex_app {A : Type} (f : A -> bool) (pre post : list A) (a : A) :
  (forall c, In c pre -> f c = false) -> f a = true ->
  JS.findIndex f (pre ++ a :: post) = Some (List.length pre).
Proof.
  intros Hpre Ha. induction pre as [|x pre IH]; simpl.
  - now rewrite Ha.
  - rewrite (Hpre x (or_introl eq_refl)), IH; [reflexivity |].
    intros c Hc. apply Hpre. now right.
Qed.

(** The list around the column that [findIndex] finds. *)
Lemma findIndex_split {A : Type} (f : A -> bool) (l : list A) (n : nat) :
  JS.findIndex f l = Some n ->
  exists pre a post,
    l = pre ++ a :: post /\ List.length pre = n /\ f a = true /\
    forall c, In c pre -> f c = false.
Proof.
  revert n; induction l as [|x l IH]; intros n; simpl; [discriminate |].
  destruct (f x) eqn:Hx.
  - intros [= <-]. exists [], x, l. repeat split; [exact Hx | intros c []].
  - destruct (JS.findIndex f l) as [k|]; simpl; [| discriminate].
    intros [= <-]. destruct (IH k eq_refl) as (pre & a & post & -> & <- & Ha & Hpre).
    exists (x :: pre), a, post. repeat split; [exact Ha |].
    intros c [<- | Hc]; [exact Hx | now apply Hpre].
Qed.

Lemma findIndex_split_succ {A : Type} (f : A -> bool) (l : list A) (i : nat) :
  JS.findIndex f l = Some (S i) ->
  exists pre b a post,
    l = pre ++ b :: a :: post /\ List.length pre = i /\ f a = true /\ f b = false /\
    forall c, In c pre -> f c = false.
Proof.
  intros Hfind.
  destruct (findIndex_split f l (S i) Hfind) as (pre & a & post & -> & Hlen & Ha & Hpre).
  destruct pre as [|x pre] using rev_ind; [discriminate Hlen |].
  rewrite length_app in Hlen. simpl in Hlen.
  exists pre, x, a, post. rewrite <- List.app_assoc. simpl.
  repeat split; [lia | exact Ha | |].
  - apply Hpre. apply in_or_app. right. now left.
  - intros c Hc. apply Hpre. apply in_or_app. now left.
Qed.

Section MoveColumn.

Variable id : string.

Local Abbreviation has_id := (fun col : Column.t => Column.id col =? id).

Lemma moveColumn_up_app (pre post : list Column.t) (b a : Column.t) :
  (forall c, In c pre -> has_id c = false) -> has_id b = false -> has_id a = true ->
  moveColumn (pre ++ b :: a :: post) id MoveUp = pre ++ a :: b :: post.
Proof.
  intros Hpre Hb Ha.
  destruct (lookup_after pre post b a) as [Lb La].
  rewrite (moveColumn_up _ id (List.length pre) a b).
  - now rewrite take_before, drop_two_after.
  - replace (pre ++ b :: a :: post) with ((pre ++ [b]) ++ a :: post)
      by now rewrite <- List.app_assoc.
    replace (S (List.length pre)) with (List.length (pre ++ [b]))
      by (rewrite length_app; simpl; lia).
    apply findIndex_app; [| exact Ha].
    intros c Hc. apply in_app_or in Hc as [Hc | [<- | []]]; [now apply Hpre | exact Hb].
  - exact Lb.
  - exact La.
Qed.

Lemma moveColumn_down_app (pre post : list Column.t) (a b : Column.t) :
  (forall c, In c pre -> has_id c = false) -> has_id a = true ->
  moveColumn (pre ++ a :: b :: post) id MoveDown = pre ++ b :: a :: post.
Proof.
  intros Hpre Ha.
  destruct (lookup_after pre post a b) as [La Lb].
  rewrite (moveColumn_down _ id (List.length pre) a b).
  - now rewrite take_before, drop_two_after.
  - now apply findIndex_app.
  - exact La.
  - exact Lb.
Qed.

Lemma moveColumn_absent (columns : list Column.t) (direction : MoveDirection) :
  JS.findIndex has_id columns = None -> moveColumn columns id direction = columns.
Proof. intros H. unfold moveColumn. now rewrite H. Qed.

Lemma moveColumn_first_up (columns : list Column.t) :
  JS.findIndex has_id columns = Some 0%nat -> moveColumn columns id MoveUp = columns.
Proof. intros H. unfold moveColumn. now rewrite H. Qed.

Lemma moveColumn_last_down (columns : list Column.t) (n : nat) :
  JS.findIndex has_id columns = Some n -> List.length columns = S n ->
  moveColumn columns id MoveDown = columns.
Proof.
  intros H Hlen. unfold moveColumn. rewrite H, Hlen.
  destruct (Z.leb_spec (Z.of_nat (S n)) (Z.of_nat n + 1)); [| lia].
  now rewrite orb_true_r.
Qed.

End MoveColumn.

(** [moveColumn] only reorders: the array it hands to [setColumns] is a
    permutation of the columns it was given, so no column is lost or
    doubled, whatever the id and the direction. *)
Theorem moveColumn_permutation
    (columns : list Column.t) (id : string) (direction : MoveDirection) :
  Permutation (moveColumn columns id direction) columns.
Proof.
  destruct (JS.findIndex (fun col => Column.id col =? id) columns) as [n|] eqn:Hfind;
    [| now rewrite moveColumn_absent].
  destruct direction.
  - destruct n as [|i]; [now rewrite moveColumn_first_up |].
    destruct (findIndex_split_succ _ _ _ Hfind)
      as (pre & b & a & post & -> & _ & Ha & Hb & Hpre).
    rewrite moveColumn_up_app by assumption.
    apply Permutation_app_head, perm_swap.
  - destruct (findIndex_split _ _ _ Hfind) as (pre & a & post & -> & Hlen & Ha & Hpre).
    destruct post as [|b post].
    + rewrite (moveColumn_last_down id _ n Hfind); [reflexivity |].
      rewrite length_app. simpl. lia.
    + rewrite moveColumn_down_app by assumption.
      apply Permutation_app_head, perm_swap.
Qed.

(** [moveColumn] leaves the columns as they are when no column has the
    id, when the column is the first one and is moved up, and when it is
    the last one and is moved down. *)
Theorem moveColumn_at_the_ends
    (columns : list Column.t) (id : string) (direction : MoveDirection) :
  (forall c, In c columns -> Column.id c <> id) \/
  (exists c rest, columns = c :: rest /\ Column.id c = id /\ direction = MoveUp) \/
  (exists front c, columns = front ++ [c] /\ Column.id c = id /\
                   (forall c', In c' front -> Column.id c' <> id) /\
                   direction = MoveDown) ->
  moveColumn columns id direction = columns.
Proof.
  intros [Habsent | [(c & rest & -> & Hc & ->) | (front & c & -> & Hc & Hfront & ->)]].
  - apply moveColumn_absent, findIndex_None.
    intros c Hin. apply String.eqb_neq. now apply Habsent.
  - apply moveColumn_first_up. simpl. now rewrite Hc, String.eqb_refl.
  - apply (moveColumn_last_down id _ (List.length front)).
    + apply findIndex_app.
      * intros c' Hin. apply String.eqb_neq. now apply Hfront.
      * rewrite Hc. apply String.eqb_refl.
    + rewrite length_app. simpl. lia.
Qed.

Lemma moveColumn_at_the_ends_witness :
  moveColumn (TableData.columns Sample.tableB) "b_pk" MoveUp =
    TableData.columns Sample.tableB /\
  moveColumn (TableData.columns Sample.tableB) "b_id" MoveDown =
    TableData.columns Sample.tableB.
Proof.
  split; apply moveColumn_at_the_ends.
  - right; left. eexists _, _. repeat split.
  - right; right.
    exists [Sample.column "b_pk" "id" "INT" true], (Sample.column "b_id" "b_id" "INT" false).
    repeat split. intros c' [<- | []]. vm_compute. discriminate.
Defined.

(** Moving a column up and then down again gives back the columns, for a
    column that is not the first one. *)
Theorem moveColumn_up_then_down (columns : list Column.t) (id : string) (i : nat) :
  JS.findIndex (fun col => Column.id col =? id) columns = Some (S i) ->
  moveColumn (moveColumn columns id MoveUp) id MoveDown = columns.
Proof.
  intros Hfind.
  destruct (findIndex_split_succ _ _ _ Hfind)
    as (pre & b & a & post & -> & _ & Ha & Hb & Hpre).
  rewrite moveColumn_up_app by assumption.
  now rewrite moveColumn_down_app by assumption.
Qed.

Lemma moveColumn_up_then_down_witness :
  moveColumn (moveColumn (TableData.columns Sample.tableB) "b_id" MoveUp) "b_id" MoveDown =
  TableData.columns Sample.tableB.
Proof.
  apply (moveColumn_up_then_down (TableData.columns Sample.tableB) "b_id" 0).
  reflexivity.
Defined.

(** Moving a column down and then up again gives back the columns, for a
    column that is not the last one, when the column ids are distinct.
    (With a second column of the same id next to it, the second call
    would find that one.) *)
Theorem moveColumn_down_then_up (columns : list Column.t) (id : string) (i : nat) :
  NoDup (map Column.id columns) ->
  JS.findIndex (fun col => Column.id col =? id) columns = Some i ->
  (S i < List.length columns)%nat ->
  moveColumn (moveColumn columns id MoveDown) id MoveUp = columns.
Proof.
  intros Hnodup Hfind Hlen.
  destruct (findIndex_split _ _ _ Hfind) as (pre & a & post & -> & <- & Ha & Hpre).
  destruct post as [|b post].
  { rewrite length_app in Hlen. simpl in Hlen. lia. }
  assert (Hb : (Column.id b =? id) = false).
  { apply String.eqb_neq. intros Eb. apply String.eqb_eq in Ha.
    rewrite map_app in Hnodup. apply NoDup_app in Hnodup as (_ & _ & Hnd).
    simpl in Hnd. apply NoDup_cons in Hnd as [Hnotin _].
    apply Hnotin. rewrite Ha, <- Eb. now left. }
  rewrite moveColumn_down_app by assumption.
  now rewrite moveColumn_up_app by assumption.
Qed.

Lemma moveColumn_down_then_up_witness :
  moveColumn (moveColumn (TableData.columns Sample.tableB) "b_pk" MoveDown) "b_pk" MoveUp =
  TableData.columns Sample.tableB.
Proof.
  apply (moveColumn_down_then_up (TableData.columns Sample.tableB) "b_pk" 0).
  - apply (bool_decide_unpack _). vm_compute. reflexivity.
  - reflexivity.
  - simpl. lia.
Defined.

(** ** Further properties of [projectReducer] *)

Lemma findTable_filter_None (h : store) (tables : list loc) (tid : string) :
  findTable h
    (List.filter (fun l => match tableIdAt h l with
                           | Some i => negb (i =? tid)
                           | None => true
                           end) tables) tid = None.
Proof.
  induction tables as [|l rest IH]; simpl; [reflexivity |].
  unfold tableIdAt at 1. destruct (h !! l) as [t|] eqn:Hl; simpl.
  - destruct (TableData.id t =? tid) eqn:E; simpl; [exact IH |].
    now rewrite Hl, E.
  - now rewrite Hl.
Qed.

(** DELETE_TABLE cascades: afterwards no table of the state has the id,
    the relationships left are exactly those that neither start nor end
    at the table, and no index or trigger of the table is left.  It
    writes no table object, so a column that one of the removed
    relationships had flagged as a foreign key keeps its flag and its
    references. *)
Theorem delete_table_cascade (h : store) (state : ProjectData.t) (tid : string) :
  let deleted := projectReducer h state (DELETE_TABLE tid) in
  deleted.2 = h /\
  findTable h (ProjectData.tables deleted.1) tid = None /\
  (forall rel,
      In rel (ProjectData.relationships deleted.1) <->
      In rel (ProjectData.relationships state) /\
      RelationshipData.sourceTable rel <> tid /\
      RelationshipData.targetTable rel <> tid) /\
  (forall index, In index (ProjectData.indexes deleted.1) <->
                 In index (ProjectData.indexes state) /\ IndexData.tableId index <> tid) /\
  (forall trigger, In trigger (ProjectData.triggers deleted.1) <->
                   In trigger (ProjectData.triggers state) /\
                   TriggerData.tableId trigger <> tid).
Proof.
  cbv zeta. unfold projectReducer. simpl.
  split; [reflexivity |]. split; [apply findTable_filter_None |].
  repeat split.
  - now apply List.filter_In in H.
  - apply List.filter_In in H as [_ H]. apply andb_true_iff in H as [H _].
    now apply negb_true_iff, String.eqb_neq in H.
  - apply List.filter_In in H as [_ H]. apply andb_true_iff in H as [_ H].
    now apply negb_true_iff, String.eqb_neq in H.
  - intros (Hin & Hs & Ht). apply List.filter_In. split; [exact Hin |].
    apply andb_true_iff. split; now apply negb_true_iff, String.eqb_neq.
  - now apply List.filter_In in H.
  - apply List.filter_In in H as [_ H]. now apply negb_true_iff, String.eqb_neq in H.
  - intros (Hin & Hne). apply List.filter_In. split; [exact Hin |].
    now apply negb_true_iff, String.eqb_neq.
  - now apply List.filter_In in H.
  - apply List.filter_In in H as [_ H]. now apply negb_true_iff, String.eqb_neq in H.
  - intros (Hin & Hne). apply List.filter_In. split; [exact Hin |].
    now apply negb_true_iff, String.eqb_neq.
Qed.

Lemma unmark_mark_clear (rel : RelationshipData.t) (cols : list Column.t) :
  Forall (fun c =>
            Column.id c = RelationshipData.targetColumn rel ->
            Column.isForeignKey c = Some false /\
            Column.referencesTable c = None /\ Column.referencesColumn c = None) cols ->
  map (unmarkColumn rel) (map (markColumn rel) cols) = cols.
Proof.
  intros H. rewrite map_map. induction H as [|c cols Hc _ IH]; simpl; [reflexivity |].
  rewrite IH, unmark_mark. f_equal. unfold unmarkColumn.
  destruct (String.eqb_spec (Column.id c) (RelationshipData.targetColumn rel)) as [E | _];
    [| reflexivity].
  destruct (Hc E) as (H1 & H2 & H3). destruct c. simpl in *. now subst.
Qed.

Lemma setColumns_same (t : TableData.t) : setColumns t (TableData.columns t) = t.
Proof. now destruct t. Qed.

(** Adding a relationship and deleting it again gives back the state and
    every table object exactly, provided the id is new and the target
    columns were clear before: flag false, no references.  (A target
    column whose flag was undefined comes back with the flag false.) *)
Theorem add_then_delete_restores
    (h : store) (state : ProjectData.t) (rel : RelationshipData.t) :
  (forall r, In r (ProjectData.relationships state) ->
             RelationshipData.id r <> RelationshipData.id rel) ->
  (forall l target,
      findTable h (ProjectData.tables state) (RelationshipData.targetTable rel)
        = Some (l, target) ->
      Forall (fun c =>
                Column.id c = RelationshipData.targetColumn rel ->
                Column.isForeignKey c = Some false /\
                Column.referencesTable c = None /\ Column.referencesColumn c = None)
             (TableData.columns target)) ->
  let added := projectReducer h state (ADD_RELATIONSHIP rel) in
  projectReducer added.2 added.1 (DELETE_RELATIONSHIP (RelationshipData.id rel))
  = (state, h).
Proof.
  intros Hfresh Hclear. cbv zeta.
  assert (Hadd :
    projectReducer h state (ADD_RELATIONSHIP rel) =
    (ProjectData.withRelationships state (ProjectData.relationships state ++ [rel]),
     match findTable h (ProjectData.tables state) (RelationshipData.targetTable rel) with
     | Some (l, target) =>
         <[l := setColumns target (map (markColumn rel) (TableData.columns target))]> h
     | None => h
     end)).
  { unfold projectReducer. simpl.
    now destruct (findTable h _ _) as [[l target]|]. }
  rewrite Hadd. simpl fst. simpl snd.
  unfold projectReducer. simpl ProjectData.relationships. simpl ProjectData.tables.
  rewrite find_appended, filter_appended by exact Hfresh.
  assert (Hstate :
    ProjectData.withRelationships
      (ProjectData.withRelationships state (ProjectData.relationships state ++ [rel]))
      (ProjectData.relationships state) = state) by now destruct state.
  rewrite Hstate.
  destruct (findTable h (ProjectData.tables state) (RelationshipData.targetTable rel))
    as [[l target]|] eqn:Hfind.
  - erewrite findTable_insert by (exact Hfind || reflexivity).
    simpl. rewrite insert_insert_eq.
    rewrite (unmark_mark_clear rel _ (Hclear l target eq_refl)).
    unfold setColumns at 1. simpl. fold (setColumns target (TableData.columns target)).
    rewrite setColumns_same.
    apply findTable_Some in Hfind as [Hl _]. now rewrite insert_id.
  - now rewrite Hfind.
Qed.

Lemma add_then_delete_restores_witness :
  let added :=
    projectReducer Fixture.clearHeap Sample.project (ADD_RELATIONSHIP Sample.relAB) in
  projectReducer added.2 added.1 (DELETE_RELATIONSHIP "r1")
  = (Sample.project, Fixture.clearHeap).
Proof.
  apply (add_then_delete_restores Fixture.clearHeap Sample.project Sample.relAB).
  - intros r [].
  - intros l target Hfind. vm_compute in Hfind. injection Hfind as <- <-.
    constructor; [vm_compute; intros H; discriminate H |].
    constructor; [vm_compute; intros _; repeat split |].
    constructor.
Defined.

(** DELETE_RELATIONSHIP does not look at the other relationships: when
    a second relationship ends at the same table and column, deleting
    the first one leaves the second in the collection and still rewrites
    the column to flag false and no references. *)
Theorem delete_relationship_clears_shared_target
    (h : store) (state : ProjectData.t) (first second : RelationshipData.t)
    (l : loc) (target : TableData.t) :
  List.find (fun r => RelationshipData.id r =? RelationshipData.id first)
            (ProjectData.relationships state) = Some first ->
  In second (ProjectData.relationships state) ->
  RelationshipData.id second <> RelationshipData.id first ->
  RelationshipData.targetTable second = RelationshipData.targetTable first ->
  RelationshipData.targetColumn second = RelationshipData.targetColumn first ->
  findTable h (ProjectData.tables state) (RelationshipData.targetTable first)
    = Some (l, target) ->
  let deleted := projectReducer h state (DELETE_RELATIONSHIP (RelationshipData.id first)) in
  In second (ProjectData.relationships deleted.1) /\
  exists target',
    deleted.2 !! l = Some target' /\
    Forall (fun c =>
              Column.id c = RelationshipData.targetColumn second ->
              Column.isForeignKey c = Some false /\
              Column.referencesTable c = None /\ Column.referencesColumn c = None)
           (TableData.columns target').
Proof.
  intros Hfind Hin Hid _ Hcol Htable. cbv zeta.
  unfold projectReducer. rewrite Hfind. simpl ProjectData.tables. rewrite Htable.
  simpl. split.
  - apply List.filter_In. split; [exact Hin |].
    now apply negb_true_iff, String.eqb_neq.
  - eexists. split; [apply lookup_insert_eq |]. simpl.
    rewrite Hcol. apply List.Forall_forall. intros c Hc.
    apply in_map_iff in Hc as (c0 & <- & _). unfold unmarkColumn.
    destruct (String.eqb_spec (Column.id c0) (RelationshipData.targetColumn first))
      as [E | Hne]; simpl; [now intros _ | now intros E].
Qed.

Lemma delete_relationship_clears_shared_target_witness :
  let deleted :=
    projectReducer Sample.heap Fixture.twoRelationships (DELETE_RELATIONSHIP "r1") in
  In Fixture.relAB2 (ProjectData.relationships deleted.1) /\
  exists target',
    deleted.2 !! 2%positive = Some target' /\
    Forall (fun c =>
              Column.id c = "b_id" ->
              Column.isForeignKey c = Some false /\
              Column.referencesTable c = None /\ Column.referencesColumn c = None)
           (TableData.columns target').
Proof.
  apply (delete_relationship_clears_shared_target Sample.heap Fixture.twoRelationships
           Sample.relAB Fixture.relAB2 2%positive Sample.tableB).
  - reflexivity.
  - simpl. tauto.
  - vm_compute. discriminate.
  - reflexivity.
  - reflexivity.
  - reflexivity.
Defined.

Lemma omap_lookup_weaken (h h' : store) (ls : list loc) :
  h ⊆ h' -> Forall (fun l => is_Some (h !! l)) ls ->
  omap (fun l => h' !! l) ls = omap (fun l => h !! l) ls.
Proof.
  intros Hsub Hall. induction Hall as [|l ls [t Hl] _ IH]; csimpl; [reflexivity |].
  now rewrite (lookup_weaken _ _ _ _ Hl Hsub), Hl, IH.
Qed.

Lemma updatePositions_spec (id : string) (p : Position) (ls : list loc) (h : store) :
  Forall (fun l => is_Some (h !! l)) ls ->
  h ⊆ (updatePositions h id p ls).2 /\
  omap (fun l => (updatePositions h id p ls).2 !! l) (updatePositions h id p ls).1 =
  map (fun t => if TableData.id t =? id then setPosition t p else t)
      (omap (fun l => h !! l) ls).
Proof.
  revert h; induction ls as [|l rest IH]; intros h Hall; csimpl.
  - split; [reflexivity | reflexivity].
  - apply Forall_cons in Hall as [[t Hl] Hrest]. rewrite Hl.
    destruct (TableData.id t =? id) eqn:E.
    + set (l' := fresh (dom h)).
      assert (Hfresh : h !! l' = None) by apply not_elem_of_dom, is_fresh.
      set (h1 := <[l' := setPosition t p]> h).
      assert (Hsub : h ⊆ h1) by now apply insert_subseteq.
      assert (Hrest1 : Forall (fun l => is_Some (h1 !! l)) rest).
      { eapply List.Forall_impl; [| exact Hrest].
        intros l0 [t0 H0]. exists t0. eapply lookup_weaken; eauto. }
      destruct (IH h1 Hrest1) as [Hsub' Heq].
      destruct (updatePositions h1 id p rest) as [rest' h'] eqn:Hup. csimpl in *.
      split; [now transitivity h1 |].
      assert (Hl' : h' !! l' = Some (setPosition t p)).
      { eapply lookup_weaken; [| exact Hsub']. apply lookup_insert_eq. }
      rewrite Hl', E. csimpl. f_equal. rewrite Heq. f_equal.
      now apply omap_lookup_weaken.
    + destruct (IH h Hrest) as [Hsub' Heq].
      destruct (updatePositions h id p rest) as [rest' h'] eqn:Hup. csimpl in *.
      split; [exact Hsub' |].
      rewrite (lookup_weaken _ _ _ _ Hl Hsub'), E. csimpl. now rewrite Heq.
Qed.

(** UPDATE_TABLE_POSITION writes no existing table object: a table with
    the id is replaced in the state by a new object that differs in its
    position only, every object of the store before is in the store
    after, unchanged, and the tables of the state are otherwise the
    same, in the same order.  (The state's locations all hold objects.) *)
Theorem update_table_position_copies
    (h : store) (state : ProjectData.t) (id : string) (p : Position) :
  Forall (fun l => is_Some (h !! l)) (ProjectData.tables state) ->
  let moved := projectReducer h state (UPDATE_TABLE_POSITION id p) in
  (forall l t, h !! l = Some t -> moved.2 !! l = Some t) /\
  readTables moved.2 moved.1 =
    map (fun t => if TableData.id t =? id then setPosition t p else t)
        (readTables h state) /\
  ProjectData.relationships moved.1 = ProjectData.relationships state.
Proof.
  intros Hall. cbv zeta. unfold projectReducer.
  destruct (updatePositions_spec id p (ProjectData.tables state) h Hall) as [Hsub Heq].
  destruct (updatePositions h id p (ProjectData.tables state)) as [tables' h'] eqn:Hup.
  simpl in *. split; [| split; [exact Heq | reflexivity]].
  intros l t Hl. eapply lookup_weaken; eauto.
Qed.

Lemma update_table_position_copies_witness :
  let moved :=
    projectReducer Sample.heap Sample.project
      (UPDATE_TABLE_POSITION "B" {| pos_x := 40; pos_y := 60 |}) in
  readTables moved.2 moved.1 =
    [Sample.tableA; setPosition Sample.tableB {| pos_x := 40; pos_y := 60 |}] /\
  moved.2 !! 2%positive = Some Sample.tableB.
Proof.
  destruct (update_table_position_copies Sample.heap Sample.project "B"
              {| pos_x := 40; pos_y := 60 |}) as (Hold & Hread & _).
  - constructor; [now exists Sample.tableA |].
    constructor; [now exists Sample.tableB | constructor].
  - cbv zeta. split; [rewrite Hread; reflexivity | now apply Hold].
Defined.

(** UPDATE_TABLE replaces by id: a table object whose id no table of
    the state has replaces nothing, and the state comes back as it
    was. *)
Theorem update_table_unknown_id
    (h : store) (state : ProjectData.t) (payload : loc) (table : TableData.t) :
  h !! payload = Some table ->
  (forall l t, In l (ProjectData.tables state) -> h !! l = Some t ->
               TableData.id t <> TableData.id table) ->
  projectReducer h state (UPDATE_TABLE payload) = (state, h).
Proof.
  intros Hp Hnew. unfold projectReducer. f_equal.
  assert (Hmap :
    map (fun l => match tableIdAt h l, tableIdAt h payload with
                  | Some i, Some j => if i =? j then payload else l
                  | _, _ => l
                  end) (ProjectData.tables state) = ProjectData.tables state).
  { rewrite <- (map_id (ProjectData.tables state)) at 2.
    apply map_ext_in. intros l Hin. unfold tableIdAt. rewrite Hp. simpl.
    destruct (h !! l) as [t|] eqn:Hl; simpl; [| reflexivity].
    destruct (String.eqb_spec (TableData.id t) (TableData.id table)) as [E | _];
      [| reflexivity].
    now contradiction (Hnew l t Hin Hl). }
  rewrite Hmap. now destruct state.
Qed.

Lemma update_table_unknown_id_witness :
  projectReducer (<[3%positive := Sample.notes]> Sample.heap) Sample.project
    (UPDATE_TABLE 3%positive)
  = (Sample.project, <[3%positive := Sample.notes]> Sample.heap).
Proof.
  apply (update_table_unknown_id _ Sample.project 3%positive Sample.notes).
  - reflexivity.
  - intros l t [<- | [<- | []]] Hl; vm_compute in Hl; injection Hl as <-;
      vm_compute; discriminate.
Defined.

Lemma NoDup_map_filter {A B : Type} (g : A -> B) (p : A -> bool) (l : list A) :
  List.NoDup (map g l) -> List.NoDup (map g (List.filter p l)).
Proof.
  induction l as [|x l IH]; simpl; intros H; [exact H |].
  apply List.NoDup_cons_iff in H as [Hx Hl].
  destruct (p x); simpl; [| now apply IH].
  apply List.NoDup_cons_iff. split; [| now apply IH].
  intros Hin. apply Hx. apply in_map_iff in Hin as (y & <- & Hy).
  apply in_map. now apply List.filter_In in Hy.
Qed.

(** The relationships of the state an action returns. *)
Lemma reducer_relationships (h : store) (state : ProjectData.t) (action : ProjectAction) :
  ProjectData.relationships (projectReducer h state action).1 =
  match action with
  | SET_PROJECT payload => ProjectData.relationships payload
  | DELETE_TABLE payload =>
      List.filter (fun r =>
                     negb (RelationshipData.sourceTable r =? payload) &&
                     negb (RelationshipData.targetTable r =? payload))
                  (ProjectData.relationships state)
  | ADD_RELATIONSHIP payload => ProjectData.relationships state ++ [payload]
  | UPDATE_RELATIONSHIP payload =>
      map (fun r =>
             if RelationshipData.id r =? RelationshipData.id payload
             then payload else r)
          (ProjectData.relationships state)
  | DELETE_RELATIONSHIP payload =>
      List.filter (fun r => negb (RelationshipData.id r =? payload))
                  (ProjectData.relationships state)
  | CLEAR_PROJECT => []
  | _ => ProjectData.relationships state
  end.
Proof.
  destruct action; unfold projectReducer; try reflexivity.
  - now destruct (updatePositions h id position (ProjectData.tables state)).
  - simpl ProjectData.tables. now destruct (findTable h _ _) as [[l t]|].
  - destruct (List.find _ (ProjectData.relationships state)) as [r|]; [| reflexivity].
    simpl ProjectData.tables. now destruct (findTable h _ _) as [[l t]|].
Qed.

(** The reducer keeps the relationship ids distinct: if they are
    distinct in the state, they are distinct after every action,
    provided an added relationship brings an id that no relationship of
    the state has, and a project that replaces the state has distinct
    ids itself. *)
Theorem relationship_ids_stay_distinct
    (h : store) (state : ProjectData.t) (action : ProjectAction) :
  List.NoDup (map RelationshipData.id (ProjectData.relationships state)) ->
  match action with
  | SET_PROJECT payload =>
      List.NoDup (map RelationshipData.id (ProjectData.relationships payload))
  | ADD_RELATIONSHIP payload =>
      ~ In (RelationshipData.id payload)
           (map RelationshipData.id (ProjectData.relationships state))
  | _ => True
  end ->
  List.NoDup
    (map RelationshipData.id
         (ProjectData.relationships (projectReducer h state action).1)).
Proof.
  intros Hnd Hact. rewrite reducer_relationships.
  destruct action; try exact Hnd; try exact Hact.
  - now apply NoDup_map_filter.
  - rewrite map_app. simpl.
    apply List.NoDup_rev in Hnd. rewrite <- (rev_involutive (_ ++ _)).
    apply List.NoDup_rev. rewrite rev_app_distr. simpl.
    apply List.NoDup_cons_iff. split; [| exact Hnd].
    intros Hin. apply Hact. now apply in_rev.
  - rewrite map_map.
    assert (Hids :
      map (fun r =>
             RelationshipData.id
               (if RelationshipData.id r =? RelationshipData.id payload
                then payload else r))
          (ProjectData.relationships state) =
      map RelationshipData.id (ProjectData.relationships state)).
    { apply map_ext. intros r.
      destruct (String.eqb_spec (RelationshipData.id r) (RelationshipData.id payload));
        congruence. }
    now rewrite Hids.
  - now apply NoDup_map_filter.
  - constructor.
Qed.

Lemma relationship_ids_stay_distinct_witness :
  List.NoDup
    (map RelationshipData.id
       (ProjectData.relationships
          (projectReducer Sample.heap Fixture.twoRelationships
             (ADD_RELATIONSHIP Sample.relDangling)).1)).
Proof.
  apply relationship_ids_stay_distinct.
  - apply List.NoDup_cons; [simpl; intros [H | []]; discriminate H |].
    apply List.NoDup_cons; [intros [] | apply List.NoDup_nil].
  - simpl. intros H. repeat (destruct H as [H | H]; [discriminate H |]). exact H.
Defined.

(** ** String literals in INSERT and UPDATE *)

Lemma append_inj_l (p a b : string) : p +:+ a = p +:+ b -> a = b.
Proof.
  induction p as [|c p IH]; [easy |].
  rewrite !append_cons. intros [= H]. now apply IH.
Qed.

(** An escaped string ends at the first quote that no quote follows:
    two escaped strings, each closed by a quote and followed by text
    that does not start with a quote, are equal texts only for equal
    strings and equal followers. *)
Lemma literal_inj (a b ra rb : string) :
  (forall r, ra <> String "'" r) -> (forall r, rb <> String "'" r) ->
  JS.replaceQuotes a +:+ String "'" ra = JS.replaceQuotes b +:+ String "'" rb ->
  a = b /\ ra = rb.
Proof.
  intros Hra Hrb. revert b; induction a as [|c a IH]; intros [|d b]; simpl.
  - rewrite !append_nil_l. now intros [= ->].
  - rewrite append_nil_l. destruct (Ascii.eqb_spec d "'") as [-> | Hd];
      rewrite !append_cons; intros [= H].
    + now contradiction (Hra _ H).
    + now contradiction Hd.
  - rewrite append_nil_l. destruct (Ascii.eqb_spec c "'") as [-> | Hc];
      rewrite !append_cons; intros [= H].
    + symmetry in H. now contradiction (Hrb _ H).
    + now contradiction Hc.
  - destruct (Ascii.eqb_spec c "'") as [-> | Hc];
      destruct (Ascii.eqb_spec d "'") as [-> | Hd];
      rewrite !append_cons.
    + intros [= H]. destruct (IH b H) as [-> ->]. now split.
    + intros [= E _]. now contradiction Hd.
    + intros [= E _]. now contradiction Hc.
    + intros [= -> H]. destruct (IH b H) as [-> ->]. now split.
Qed.

Lemma formatValue_string_inj_followed (a b ra rb : string) :
  (forall r, ra <> String "'" r) -> (forall r, rb <> String "'" r) ->
  SQLGenerator.formatValue (VString a) +:+ ra =
  SQLGenerator.formatValue (VString b) +:+ rb ->
  a = b /\ ra = rb.
Proof.
  intros Hra Hrb. simpl. rewrite !append_assoc, !append_cons, !append_nil_l.
  intros [= H]. now apply literal_inj.
Qed.

Lemma join_cons2 (sep x y : string) (r : list string) :
  JS.join sep (x :: y :: r) = x +:+ sep +:+ JS.join sep (y :: r).
Proof. reflexivity. Qed.

Section Literals.

Variable dialect : string.

Local Abbreviation field :=
  (fun ks : string * string => (fst ks, VString (snd ks))).

Lemma insert_values_inj (fields fields' : list (string * string)) (tail : string) :
  map fst fields = map fst fields' ->
  (forall r, tail <> String "'" r) ->
  JS.join ", " (map (fun kv => SQLGenerator.formatValue (snd kv)) (map field fields))
    +:+ tail =
  JS.join ", " (map (fun kv => SQLGenerator.formatValue (snd kv)) (map field fields'))
    +:+ tail ->
  fields = fields'.
Proof.
  intros Hkeys Htail. revert fields' Hkeys.
  induction fields as [|[k a] fields IH]; intros [|[k' b] fields'] Hkeys;
    try discriminate Hkeys; [reflexivity |].
  simpl in Hkeys. injection Hkeys as <- Hkeys.
  destruct fields as [|f1 fields]; destruct fields' as [|f1' fields'];
    try discriminate Hkeys.
  - cbn [map JS.join fst snd]. intros H.
    apply formatValue_string_inj_followed in H as [-> _]; auto.
  - rewrite !List.map_cons, !join_cons2. cbn [fst snd]. rewrite !append_assoc.
    intros H.
    apply formatValue_string_inj_followed in H as [-> H]; try discriminate.
    apply append_inj_l in H. f_equal. apply IH; [exact Hkeys | exact H].
Qed.

Lemma update_sets_inj (fields fields' : list (string * string)) (tail : string) :
  map fst fields = map fst fields' ->
  (forall r, tail <> String "'" r) ->
  JS.join ", "
    (map (fun kv => SQLGenerator.quoteIdentifier dialect (fst kv) +:+ " = " +:+
                    SQLGenerator.formatValue (snd kv)) (map field fields)) +:+ tail =
  JS.join ", "
    (map (fun kv => SQLGenerator.quoteIdentifier dialect (fst kv) +:+ " = " +:+
                    SQLGenerator.formatValue (snd kv)) (map field fields')) +:+ tail ->
  fields = fields'.
Proof.
  intros Hkeys Htail. revert fields' Hkeys.
  induction fields as [|[k a] fields IH]; intros [|[k' b] fields'] Hkeys;
    try discriminate Hkeys; [reflexivity |].
  simpl in Hkeys. injection Hkeys as <- Hkeys.
  destruct fields as [|f1 fields]; destruct fields' as [|f1' fields'];
    try discriminate Hkeys.
  - cbn [map JS.join fst snd]. rewrite !append_assoc. intros H.
    do 2 apply append_inj_l in H.
    apply formatValue_string_inj_followed in H as [-> _]; auto.
  - rewrite !List.map_cons, !join_cons2. cbn [fst snd]. rewrite !append_assoc.
    intros H.
    do 2 apply append_inj_l in H.
    apply formatValue_string_inj_followed in H as [-> H]; try discriminate.
    apply append_inj_l in H. f_equal. apply IH; [exact Hkeys | exact H].
Qed.

End Literals.

(** Escaping keeps INSERT and UPDATE statements apart: for the same
    table and the same property names, in the same order, with string
    values, two data objects give the same statement only if they hold
    the same strings. *)
Theorem insert_update_strings_injective
    (dialect tableName whereClause : string) (fields fields' : list (string * string)) :
  map fst fields = map fst fields' ->
  SQLGenerator.generateInsertSQL dialect tableName
    (map (fun ks => (fst ks, VString (snd ks))) fields) =
  SQLGenerator.generateInsertSQL dialect tableName
    (map (fun ks => (fst ks, VString (snd ks))) fields') \/
  SQLGenerator.generateUpdateSQL dialect tableName
    (map (fun ks => (fst ks, VString (snd ks))) fields) whereClause =
  SQLGenerator.generateUpdateSQL dialect tableName
    (map (fun ks => (fst ks, VString (snd ks))) fields') whereClause ->
  fields = fields'.
Proof.
  intros Hkeys [H | H].
  - unfold SQLGenerator.generateInsertSQL in H.
    assert (Hk : forall fs : list (string * string),
               map fst (map (fun ks : string * string => (fst ks, VString (snd ks))) fs) =
               map fst fs).
    { intros fs. rewrite map_map. now apply map_ext. }
    rewrite !Hk, Hkeys in H. rewrite !append_assoc in H.
    do 6 apply append_inj_l in H.
    apply (insert_values_inj fields fields' _ Hkeys) in H; [exact H | discriminate].
  - unfold SQLGenerator.generateUpdateSQL in H.
    rewrite !append_assoc in H. do 3 apply append_inj_l in H.
    apply (update_sets_inj dialect fields fields' _ Hkeys) in H; [exact H |].
    intros r. rewrite append_cons. discriminate.
Qed.

Lemma insert_update_strings_injective_witness :
  [("name", "O'Brien")] = [("name", "O'Brien")].
Proof.
  apply (insert_update_strings_injective "mysql" "users" "id = 1"
           [("name", "O'Brien")] [("name", "O'Brien")] eq_refl).
  left. reflexivity.
Defined.

(** ** Replacing and removing by an id that is not there *)

(** UPDATE_RELATIONSHIP replaces by id and writes no table object: with
    an id that no relationship of the state has, the state comes back as
    it was. *)
Theorem update_relationship_unknown_id
    (h : store) (state : ProjectData.t) (payload : RelationshipData.t) :
  (forall r, In r (ProjectData.relationships state) ->
             RelationshipData.id r <> RelationshipData.id payload) ->
  projectReducer h state (UPDATE_RELATIONSHIP payload) = (state, h).
Proof.
  intros Hnew. unfold projectReducer. f_equal.
  assert (Hmap :
    map (fun r => if RelationshipData.id r =? RelationshipData.id payload
                  then payload else r)
        (ProjectData.relationships state) = ProjectData.relationships state).
  { rewrite <- (map_id (ProjectData.relationships state)) at 2.
    apply map_ext_in. intros r Hin.
    destruct (String.eqb_spec (RelationshipData.id r) (RelationshipData.id payload))
      as [E | _]; [now contradiction (Hnew r Hin) | reflexivity]. }
  rewrite Hmap. apply withRelationships_same.
Qed.

Lemma update_relationship_unknown_id_witness :
  projectReducer Sample.heap Fixture.twoRelationships
    (UPDATE_RELATIONSHIP Sample.relDangling)
  = (Fixture.twoRelationships, Sample.heap).
Proof.
  apply update_relationship_unknown_id.
  intros r [<- | [<- | []]]; vm_compute; discriminate.
Defined.

Lemma filter_all {A : Type} (p : A -> bool) (l : list A) :
  (forall x, In x l -> p x = true) -> List.filter p l = l.
Proof. intros H. now apply forallb_filter_id, forallb_forall. Qed.

(** Adding a table and deleting it again by its id gives back the
    state, provided the id was not in use: no table of the state has
    it, and no relationship, index or trigger refers to it. *)
Theorem add_then_delete_table
    (h : store) (state : ProjectData.t) (payload : loc) (table : TableData.t) :
  h !! payload = Some table ->
  (forall l t, In l (ProjectData.tables state) -> h !! l = Some t ->
               TableData.id t <> TableData.id table) ->
  (forall r, In r (ProjectData.relationships state) ->
             RelationshipData.sourceTable r <> TableData.id table /\
             RelationshipData.targetTable r <> TableData.id table) ->
  (forall i, In i (ProjectData.indexes state) ->
             IndexData.tableId i <> TableData.id table) ->
  (forall t, In t (ProjectData.triggers state) ->
             TriggerData.tableId t <> TableData.id table) ->
  let added := projectReducer h state (ADD_TABLE payload) in
  projectReducer added.2 added.1 (DELETE_TABLE (TableData.id table)) = (state, h).
Proof.
  intros Hp Htables Hrels Hindexes Htriggers. cbv zeta.
  unfold projectReducer. simpl. f_equal.
  rewrite List.filter_app. simpl. unfold tableIdAt at 2. rewrite Hp. simpl.
  rewrite String.eqb_refl. simpl. rewrite List.app_nil_r.
  rewrite !filter_all.
  - now destruct state.
  - intros t Hin. now apply negb_true_iff, String.eqb_neq, Htriggers.
  - intros i Hin. now apply negb_true_iff, String.eqb_neq, Hindexes.
  - intros r Hin. destruct (Hrels r Hin) as [Hs Ht].
    apply andb_true_iff. split; now apply negb_true_iff, String.eqb_neq.
  - intros l Hin. unfold tableIdAt. destruct (h !! l) as [t|] eqn:Hl; simpl;
      [| reflexivity].
    apply negb_true_iff, String.eqb_neq. now apply (Htables l t).
Qed.

Lemma add_then_delete_table_witness :
  let h := <[3%positive := Sample.notes]> Sample.heap in
  let added := projectReducer h Fixture.twoRelationships (ADD_TABLE 3%positive) in
  projectReducer added.2 added.1 (DELETE_TABLE "N") = (Fixture.twoRelationships, h).
Proof.
  apply (add_then_delete_table _ Fixture.twoRelationships 3%positive Sample.notes).
  - reflexivity.
  - intros l t [<- | [<- | []]] Hl; vm_compute in Hl; injection Hl as <-;
      vm_compute; discriminate.
  - intros r [<- | [<- | []]]; split; vm_compute; discriminate.
  - intros i [].
  - intros t [].
Defined.
